(** * gnn-spatial-exploration: nearest-neighbour graph and vertex regression

    A shallow embedding of the two stages of the repository:
    - the R Markdown pre-processing ([scale], the seeded shuffle, the
      haversine distance matrix, the nearest-neighbour graph), and
    - the PyTorch notebook [gcn_analysis.ipynb] (one-hot degree features,
      [make_train_test_masks], the GCN [Model], the training loop and the
      evaluation cell).

    Floating-point tensors are idealised: rationals ([Q]) on the Python side,
    where every value read from the CSV files is a decimal, and real numbers
    ([R]) on the R side, where [scale] takes a square root and the haversine
    formula is trigonometric. *)

From Stdlib Require Import List Arith ZArith QArith Qabs Lia Lra Bool Permutation Sorted.
From Stdlib Require Import Reals FunctionalExtensionality.
From Stdlib Require String.
From Stdlib Require Import Qfield.
From Stdlib Require Lqa.
Import String.StringSyntax.
Import ListNotations.

Open Scope nat_scope.

(** * Part I: the embedding of the two files *)

(** ** Error-and-state monad of the notebook

    The notebook threads one piece of hidden state through its cells: torch's
    global random generator.  A cell either raises (here [None]) or returns a
    value together with the generator it leaves behind. *)

Module Cell.

Definition M (G A : Type) : Type := G -> option (A * G).

Definition ret {G A} (a : A) : M G A := fun g => Some (a, g).

Definition bind {G A B} (m : M G A) (k : A -> M G B) : M G B :=
  fun g => match m g with
           | Some (a, g') => k a g'
           | None => None
           end.

(** A pure computation that may raise. *)
Definition lift {G A} (o : option A) : M G A :=
  fun g => match o with Some a => Some (a, g) | None => None end.

(** Read or replace the generator. *)
Definition draw {G A} (f : G -> A * G) : M G A := fun g => Some (f g).
Definition put {G} (g : G) : M G unit := fun _ => Some (tt, g).

End Cell.

Notation "x <- m ;; k" := (Cell.bind m (fun x => k))
  (at level 61, m at next level, right associativity).

(** ** Tensor primitives used by the notebook *)

Module Torch.

(** The random part of torch that the notebook touches.  [manual_seed]
    overwrites the global generator; [randperm n] returns a permutation of
    [0 .. n-1] (that is its documented contract) and advances the generator. *)
Class Random : Type := {
  Generator : Type;
  manual_seed : Z -> Generator;
  randperm : nat -> Generator -> list nat * Generator;
  randperm_spec : forall n g, Permutation (fst (randperm n g)) (seq 0 n)
}.

(** Python's [int(t)] on a float: truncation toward zero. *)
Definition py_int (t : Q) : Z := Z.quot (Qnum t) (Zpos (Qden t)).

(** [torch.arange(n)]: raises for a negative bound. *)
Definition arange (n : Z) : option (list Z) :=
  if (n <? 0)%Z then None else Some (map Z.of_nat (seq 0 (Z.to_nat n))).

(** A Python int handed to a tensor operation is unpacked into a 64-bit
    scalar: a value of [-2^63, 2^63) as it is; a value of [2^63, 2^64) as an
    unsigned scalar, which the cast to the [int64] of the tensor wraps
    around, so that it arrives negative; any other value raises
    [OverflowError]. *)
Definition int64_scalar (c : Z) : option Z :=
  if ((- 2 ^ 63 <=? c) && (c <? 2 ^ 63))%Z then Some c
  else if ((2 ^ 63 <=? c) && (c <? 2 ^ 64))%Z then Some (c - 2 ^ 64)%Z
  else None.

(** [v < s] on an [int64] tensor and a 64-bit scalar. *)
Definition lt_scalar (s : Z) (v : list Z) : list bool :=
  map (fun i => (i <? s)%Z) v.

(** [c > v] with a Python int on the left: the comparison is handed to the
    tensor ([v < c]), which unpacks the int and broadcasts it. *)
Definition scalar_gt (c : Z) (v : list Z) : option (list bool) :=
  match int64_scalar c with
  | Some s => Some (lt_scalar s v)
  | None => None
  end.

(** [v[idx]] with an integer index tensor: an index out of range raises. *)
Fixpoint index_select {A} (v : list A) (idx : list nat) : option (list A) :=
  match idx with
  | [] => Some []
  | i :: rest =>
      match nth_error v i, index_select v rest with
      | Some a, Some r => Some (a :: r)
      | _, _ => None
      end
  end.

(** [~m] on a boolean tensor. *)
Definition bitwise_not (m : list bool) : list bool := map negb m.

(** Number of [True] entries of a mask ([mask.sum()]). *)
Definition count_true (m : list bool) : nat := length (filter (fun b => b) m).

End Torch.

(** ** The notebook's graph object and its train/test partition *)

Module Notebook.
Import Torch.

Definition Tensor1 : Type := list Q.
Definition Tensor2 : Type := list (list Q).

(** The [torch_geometric.data.Data] object [g]: one feature row per vertex,
    the edge list as two rows of vertex indices, one target per vertex. *)
Record Data : Type := {
  x : Tensor2;
  edge_index : list nat * list nat;
  y : Tensor1
}.

(** [g.num_nodes] is the number of feature rows. *)
Definition num_nodes (g : Data) : nat := length (x g).

(** [g.num_node_features] is the width of the feature matrix. *)
Definition num_node_features (g : Data) : nat :=
  match x g with
  | [] => 0
  | row :: _ => length row
  end.

(** The product [0.2 * g.num_nodes].  The double nearest to 0.2 lies above
    1/5 by less than 2^-56, so for every vertex count below 2^50 the float
    product truncates to the same integer as the exact one. *)
Definition train_fraction : Q := 2 # 10.

Section Partition.
Context {rnd : Random}.

(** [make_train_test_masks(data_size, train_size)], line by line. *)
Definition make_train_test_masks (data_size : Z) (train_size : Q)
  : Cell.M Generator (list bool * list bool) :=
  ar <- Cell.lift (arange data_size) ;;
  unshuffled_train <- Cell.lift (scalar_gt (py_int train_size) ar) ;;
  perm <- Cell.draw (randperm (Z.to_nat data_size)) ;;
  train_mask <- Cell.lift (index_select unshuffled_train perm) ;;
  let test_mask := bitwise_not train_mask in
  Cell.ret (train_mask, test_mask).

(** [g.train_mask, g.test_mask =
      make_train_test_masks(g.num_nodes, 0.2 * g.num_nodes)] *)
Definition notebook_masks (g : Data) : Cell.M Generator (list bool * list bool) :=
  make_train_test_masks (Z.of_nat (num_nodes g))
                        (train_fraction * inject_Z (Z.of_nat (num_nodes g))).

End Partition.

(** "About the fraction [f] of [n]": within a tenth of [n] of [f * n]. *)
Definition approx_fraction (f : Q) (n : nat) (c : nat) : Prop :=
  (Qabs (inject_Z (Z.of_nat c) - f * inject_Z (Z.of_nat n))
   <= (1 # 10) * inject_Z (Z.of_nat n))%Q.

End Notebook.

(** ** One-hot degree features (second code cell) *)

Module Features.
Import Notebook.

Definition obind {A B} (o : option A) (k : A -> option B) : option B :=
  match o with Some a => k a | None => None end.

Notation "x <~ o ;; k" := (obind o (fun x => k))
  (at level 61, o at next level, right associativity).

(** [maybe_num_nodes]: the given count, or one more than the largest index. *)
Definition maybe_num_nodes (index : list nat) (n : option nat) : nat :=
  match n, index with
  | Some n, _ => n
  | None, [] => 0
  | None, _ => S (list_max index)
  end.

(** [torch_geometric.utils.degree(index, num_nodes)]: how often each vertex
    occurs in [index]; scattering to an index past the end raises. *)
Definition degree (index : list nat) (n : option nat) : option (list nat) :=
  let N := maybe_num_nodes index n in
  if forallb (fun i => i <? N) index
  then Some (map (count_occ Nat.eq_dec index) (seq 0 N))
  else None.

(** [torch.max(t)]: raises on an empty tensor. *)
Definition tensor_max (t : list nat) : option nat :=
  match t with
  | [] => None
  | _ => Some (list_max t)
  end.

Definition one_hot_row (num_classes d : nat) : list Q :=
  map (fun j => if j =? d then 1%Q else 0%Q) (seq 0 num_classes).

(** [F.one_hot(t, num_classes)]: a class value that does not fit raises. *)
Definition one_hot (t : list nat) (num_classes : nat) : option Tensor2 :=
  if forallb (fun d => d <? num_classes) t
  then Some (map (one_hot_row num_classes) t)
  else None.

(** [torch.cat([a, b], dim=-1)]: the row counts must agree. *)
Definition cat_last (a b : Tensor2) : option Tensor2 :=
  if length a =? length b
  then Some (map (fun rs => fst rs ++ snd rs) (combine a b))
  else None.

(** [OneHotDegree(max_degree)(data)] with the default [in_degree=False]. *)
Definition OneHotDegree (max_degree : nat) (data : Data) : option Data :=
  let idx := fst (edge_index data) in
  deg <~ degree idx (Some (num_nodes data)) ;;
  deg <~ one_hot deg (max_degree + 1) ;;
  x' <~ cat_last (x data) deg ;;
  Some {| x := x'; edge_index := edge_index data; y := y data |}.

(** The cell: [degrees = degree(g.edge_index[0])], [max_deg = max(degrees)],
    [OneHotDegree(max_deg)(g)]. *)
Definition add_degree (g : Data) : option Data :=
  degrees <~ degree (fst (edge_index g)) None ;;
  max_deg <~ tensor_max degrees ;;
  OneHotDegree max_deg g.

(** The edge list as pairs (source, target). *)
Definition edges (g : Data) : list (nat * nat) :=
  combine (fst (edge_index g)) (snd (edge_index g)).

(** An undirected graph stored the PyTorch-Geometric way: every edge once in
    each direction, no edge twice. *)
Definition undirected (g : Data) : Prop :=
  length (fst (edge_index g)) = length (snd (edge_index g))
  /\ NoDup (edges g)
  /\ forall u w, In (u, w) (edges g) -> In (w, u) (edges g).

(** The vertices adjacent to [v], whichever way the edge is stored. *)
Definition neighbours (g : Data) (v : nat) : list nat :=
  nodup Nat.eq_dec
    (map snd (filter (fun e => fst e =? v) (edges g))
     ++ map fst (filter (fun e => snd e =? v) (edges g))).

Definition undirected_degree (g : Data) (v : nat) : nat :=
  length (neighbours g v).

(** Number of entries of a row equal to 1. *)
Definition count_ones (row : list Q) : nat :=
  length (filter (fun q => Qeq_bool q 1) row).

End Features.

(** ** The model, the training loop and the evaluation cell *)

Module Gcn.
Import Torch Notebook.

(** A zero-dimensional float tensor: a rational, or [nan] (the mean of no
    element). *)
Inductive scalar : Type :=
| Finite (q : Q)
| NaN.

(** [v[m]] with a boolean mask: the mask must have the shape of [v]. *)
Definition masked_select {A} (v : list A) (m : list bool) : option (list A) :=
  if length v =? length m
  then Some (map fst (filter snd (combine v m)))
  else None.

(** Broadcasting of two one-dimensional tensors: equal sizes, or one of them
    of size one; anything else raises. *)
Definition broadcast (a b : Tensor1) : option (list (Q * Q)) :=
  if length a =? length b then Some (combine a b)
  else match a, b with
       | [u], _ => Some (map (fun v => (u, v)) b)
       | _, [v] => Some (map (fun u => (u, v)) a)
       | _, _ => None
       end.

Definition Qsum (l : list Q) : Q := fold_right Qplus 0%Q l.

(** [nn.MSELoss()(input, target)] with the default [reduction='mean']. *)
Definition MSELoss (input target : Tensor1) : option scalar :=
  match broadcast input target with
  | None => None
  | Some [] => Some NaN
  | Some pairs =>
      Some (Finite (Qsum (map (fun p => (fst p - snd p) * (fst p - snd p))%Q pairs)
                    / inject_Z (Z.of_nat (length pairs))))
  end.

(** [F.relu] *)
Definition relu (t : Tensor2) : Tensor2 :=
  map (map (fun q => if Qle_bool 0 q then q else 0%Q)) t.

(** [x.squeeze()] on the [n x 1] output of the last layer. *)
Definition squeeze (t : Tensor2) : Tensor1 := concat t.

(** Scaling of the kept entries in training-mode dropout. *)
Definition apply_keep (keep : list (list bool)) (p : Q) (t : Tensor2) : Tensor2 :=
  map (fun kr : list bool * list Q =>
         map (fun kq : bool * Q => if fst kq then (snd kq / (1 - p))%Q else 0%Q)
             (combine (fst kr) (snd kr)))
      (combine keep t).

(** What the notebook takes from torch and torch_geometric as black boxes:
    the graph convolution (its random initialisation and its forward map),
    the Bernoulli draw behind dropout, and back-propagation followed by an
    Adam update, which sees the loss as a function of the parameters. *)
Class Layers {rnd : Random} : Type := {
  ConvParams : Type;
  GCNConv_init : nat -> nat -> Generator -> ConvParams * Generator;
  GCNConv : ConvParams -> Tensor2 -> list nat * list nat -> Tensor2;
  bernoulli : Q -> Tensor2 -> Generator -> list (list bool) * Generator;
  AdamState : Type;
  Adam : Q -> Q -> AdamState;
  Adam_step : AdamState -> ConvParams * ConvParams ->
              (ConvParams * ConvParams -> option scalar) ->
              (ConvParams * ConvParams) * AdamState
}.

Section Model.
Context {rnd : Random} {layers : Layers}.

(** [class Model(nn.Module)]: two convolutions and the mode flag that
    [model.train()] and [model.eval()] set. *)
Record Model : Type := {
  conv1 : ConvParams;
  conv2 : ConvParams;
  training : bool
}.

(** [Model.__init__(in_dim)]; a fresh module is in training mode. *)
Definition Model_init (in_dim : nat) : Cell.M Generator Model :=
  c1 <- Cell.draw (GCNConv_init in_dim 16) ;;
  c2 <- Cell.draw (GCNConv_init 16 1) ;;
  Cell.ret {| conv1 := c1; conv2 := c2; training := true |}.

Definition train_mode (m : Model) : Model :=
  {| conv1 := conv1 m; conv2 := conv2 m; training := true |}.

Definition eval_mode (m : Model) : Model :=
  {| conv1 := conv1 m; conv2 := conv2 m; training := false |}.

Definition parameters (m : Model) : ConvParams * ConvParams := (conv1 m, conv2 m).

Definition with_parameters (m : Model) (th : ConvParams * ConvParams) : Model :=
  {| conv1 := fst th; conv2 := snd th; training := training m |}.

(** The body of [forward] once the dropout decision is known: [keep] is the
    drawn mask in training mode and [None] in evaluation mode. *)
Definition forward_with (keep : option (list (list bool)))
           (th : ConvParams * ConvParams) (data : Data) : Tensor1 :=
  let x0 := x data in
  let edge_index := edge_index data in
  let x1 := GCNConv (fst th) x0 edge_index in
  let x2 := relu x1 in
  let x3 := match keep with
            | Some k => apply_keep k (25 # 100) x2
            | None => x2
            end in
  let x4 := GCNConv (snd th) x3 edge_index in
  squeeze x4.

(** The mask [F.dropout(x, p=0.25, training=self.training)] draws: one only
    in training mode. *)
Definition dropout_keep (self : Model) (data : Data)
  : Cell.M Generator (option (list (list bool))) :=
  if training self
  then k <- Cell.draw (bernoulli (1 - (25 # 100))
                         (relu (GCNConv (conv1 self) (x data) (edge_index data)))) ;;
       Cell.ret (Some k)
  else Cell.ret None.

(** [Model.forward(data)], i.e. [model(g)]. *)
Definition forward (self : Model) (data : Data) : Cell.M Generator Tensor1 :=
  keep <- dropout_keep self data ;;
  Cell.ret (forward_with keep (parameters self) data).

(** The variables the training cell leaves behind.  [pred] is unbound until
    the loop body has run once; [printed] collects the periodic output. *)
Record Session : Type := {
  model : Model;
  optimizer : AdamState;
  pred : option Tensor1;
  printed : list scalar
}.

(** The loss of one epoch, and the same loss as back-propagation sees it: a
    function of the parameters, with the dropout mask of this pass. *)
Definition masked_loss (out : Tensor1) (mask : list bool) (target : Tensor1)
  : option scalar :=
  match masked_select out mask, masked_select target mask with
  | Some a, Some b => MSELoss a b
  | _, _ => None
  end.

(** One iteration of [for epo in range(...)]. *)
Definition epoch (g : Data) (train_mask : list bool) (epo : nat) (s : Session)
  : Cell.M Generator Session :=
  keep <- dropout_keep (model s) g ;;
  let pred := forward_with keep (parameters (model s)) g in
  loss <- Cell.lift (masked_loss pred train_mask (y g)) ;;
  let (th, opt) :=
    Adam_step (optimizer s) (parameters (model s))
              (fun th => masked_loss (forward_with keep th g) train_mask (y g)) in
  Cell.ret {| model := with_parameters (model s) th;
              optimizer := opt;
              pred := Some pred;
              printed := if epo mod 500 =? 0 then printed s ++ [loss]
                         else printed s |}.

Fixpoint epochs_from (g : Data) (train_mask : list bool) (epo n : nat)
         (s : Session) : Cell.M Generator Session :=
  match n with
  | 0 => Cell.ret s
  | S n' => s' <- epoch g train_mask epo s ;;
            epochs_from g train_mask (S epo) n' s'
  end.

(** The variables before the loop: [model], [optimizer = Adam(lr = 0.01,
    weight_decay = 5e-4)], [model.train()], and no [pred] yet. *)
Definition before_loop (m : Model) : Session :=
  let optimizer := Adam (1 # 100) (5 # 10000) in
  let m := train_mode m in
  {| model := m; optimizer := optimizer; pred := None; printed := [] |}.

(** The training cell, for [range(n_epochs)]. *)
Definition train (n_epochs : nat) (g : Data) (train_mask : list bool)
  : Cell.M Generator Session :=
  m <- Model_init (num_node_features g) ;;
  epochs_from g train_mask 0 n_epochs (before_loop m).

(** The evaluation cell:
    [model.eval(); test_pred = model(g);
     test_loss = crit(pred[g.test_mask], g.y[g.test_mask]).item()].
    Reading the unbound [pred] raises. *)
Definition evaluate (s : Session) (g : Data) (test_mask : list bool)
  : Cell.M Generator (Tensor1 * scalar) :=
  let m := eval_mode (model s) in
  test_pred <- forward m g ;;
  pred <- Cell.lift (pred s) ;;
  test_loss <- Cell.lift (masked_loss pred test_mask (y g)) ;;
  Cell.ret (test_pred, test_loss).

(** What the claim asks of the cell: the loss of the evaluation-mode pass. *)
Definition evaluation_mode_loss (s : Session) (g : Data) (test_mask : list bool)
  : option scalar :=
  masked_loss (forward_with None (parameters (model s)) g) test_mask (y g).

End Model.

End Gcn.

(** ** The baseline and the notebook from top to bottom *)

Module Pipeline.
Import Torch Notebook Features Gcn.

(** [g.x[:, 0]]: the first feature column; a matrix without columns raises. *)
Definition column0 (t : Tensor2) : option Tensor1 :=
  if forallb (fun row : list Q => negb (length row =? 0)) t
  then Some (map (fun row => hd 0%Q row) t)
  else None.

Definition Qmean (l : Tensor1) : Q := Qsum l / inject_Z (Z.of_nat (length l)).

(** [LinearRegression().fit(X, y)] with a single feature: the least-squares
    slope and intercept, slope 0 on a constant feature (the minimum-norm
    solution); no sample, or sample counts that differ, raise. *)
Definition LinearRegression_fit (X y : Tensor1) : option (Q * Q) :=
  if (length X =? 0) || negb (length X =? length y) then None
  else
    let mx := Qmean X in
    let my := Qmean y in
    let sxx := Qsum (map (fun u => (u - mx) * (u - mx))%Q X) in
    let sxy := Qsum (map (fun p => (fst p - mx) * (snd p - my))%Q (combine X y)) in
    let slope := if Qeq_bool sxx 0 then 0%Q else (sxy / sxx)%Q in
    Some (slope, (my - slope * mx)%Q).

(** [reg.predict(X)]: no sample raises. *)
Definition predict (reg : Q * Q) (X : Tensor1) : option Tensor1 :=
  match X with
  | [] => None
  | _ => Some (map (fun u => (fst reg * u + snd reg)%Q) X)
  end.

(** The baseline cell. *)
Definition baseline (g : Data) (train_mask test_mask : list bool) : option scalar :=
  X <~ column0 (x g) ;;
  Xtrain <~ masked_select X train_mask ;;
  ytrain <~ masked_select (y g) train_mask ;;
  reg <~ LinearRegression_fit Xtrain ytrain ;;
  Xtest <~ masked_select X (bitwise_not train_mask) ;;
  yhat <~ predict reg Xtest ;;
  ytest <~ masked_select (y g) test_mask ;;
  MSELoss yhat ytest.

(** What a run shows: the partition and the two errors. *)
Record Report : Type := {
  train_mask : list bool;
  test_mask : list bool;
  test_loss : scalar;
  baseline_loss : scalar
}.

Section Run.
Context {rnd : Random} {layers : Layers}.

(** The notebook, cell after cell, on the loaded graph [dataset]; the loop
    bound is the only thing made a parameter (5000 in the file). *)
Definition notebook (n_epochs : nat) (dataset : Data) : Cell.M Generator Report :=
  _ <- Cell.put (manual_seed 42) ;;
  g <- Cell.lift (add_degree dataset) ;;
  masks <- notebook_masks g ;;
  s <- train n_epochs g (fst masks) ;;
  out <- evaluate s g (snd masks) ;;
  base <- Cell.lift (baseline g (fst masks) (snd masks)) ;;
  Cell.ret {| train_mask := fst masks; test_mask := snd masks;
              test_loss := snd out; baseline_loss := base |}.

End Run.

End Pipeline.

(** ** The R Markdown pre-processing *)

Module RStage.
Local Open Scope R_scope.
Local Open Scope string_scope.

(** One row of the precipitation table: name, coordinates, altitude and the
    twelve monthly columns (6 to 17). *)
Record Location : Type := {
  NAME : String.string;
  LAT : R;
  LONG : R;
  ALT : R;
  MONTHS : list R
}.

(** A row once [p$pan] and [p$scaled.alt] have been added. *)
Record Row : Type := {
  loc : Location;
  pan : R;
  scaled_alt : R
}.

Definition Rsum (l : list R) : R := fold_right Rplus 0 l.

Definition mean (v : list R) : R := Rsum v / INR (length v).

(** [sd(v)]: the sample standard deviation, denominator [n - 1]. *)
Definition sd (v : list R) : R :=
  sqrt (Rsum (map (fun u => (u - mean v) * (u - mean v)) v)
        / (INR (length v) - 1)).

(** The root mean square by which [scale] divides a centred column:
    [sqrt(sum(v^2) / max(1, length(v) - 1))]. *)
Definition rms (v : list R) : R :=
  sqrt (Rsum (map (fun u => u * u) v) / Rmax 1 (INR (length v) - 1)).

(** [scale(v)] with the defaults [center = TRUE, scale = TRUE]: subtract the
    column mean, then divide by the root mean square of what is left. *)
Definition scale (v : list R) : list R :=
  let centred := map (fun u => u - mean v) v in
  map (fun u => u / rms centred) centred.

(** [p$pan <- rowSums(p[,6:17]); p$scaled.alt <- scale(p$ALT)] *)
Definition add_columns (p : list Location) : list Row :=
  map (fun ls => {| loc := fst ls; pan := Rsum (MONTHS (fst ls)); scaled_alt := snd ls |})
      (combine p (scale (map ALT p))).

(** R's generator: [set.seed] overwrites [.Random.seed]; [sample(n)] returns
    a permutation of [1 .. n] and advances it. *)
Class RRandom : Type := {
  Seed : Type;
  set_seed : Z -> Seed;
  sample : nat -> Seed -> list nat * Seed;
  sample_spec : forall n s, Permutation (fst (sample n s)) (seq 1 n)
}.

(** [p[idx, ]] with positive, one-based indices: a zero is dropped; an index
    past the last row would give a row of [NA], which is not modelled
    ([None]). *)
Fixpoint rows {A} (p : list A) (idx : list nat) : option (list A) :=
  match idx with
  | [] => Some []
  | O :: rest => rows p rest
  | S i :: rest =>
      match nth_error p i, rows p rest with
      | Some r, Some rs => Some (r :: rs)
      | _, _ => None
      end
  end.

(** [set.seed(42); n <- nrow(p); p <- p[sample(n), ]] *)
Definition shuffle {rr : RRandom} {A} (p : list A) (_ : Seed)
  : option (list A) * Seed :=
  let s := set_seed 42 in
  let n := length p in
  let (idx, s') := sample n s in
  (rows p idx, s').

(** [a:b], which counts down when [a > b]. *)
Definition colon (a b : nat) : list nat :=
  if (a <=? b)%nat then seq a (b - a + 1) else rev (seq b (a - b + 1)).

(** [purrr::map2(a, b, f)]: equal lengths, or one argument of length one,
    which is recycled; other lengths are an error. *)
Definition map2 {A B C} (f : A -> B -> C) (a : list A) (b : list B)
  : option (list C) :=
  if (length a =? length b)%nat then Some (map (fun ab => f (fst ab) (snd ab)) (combine a b))
  else match a, b with
       | [u], _ => Some (map (f u) b)
       | _, [v] => Some (map (fun u => f u v) a)
       | _, _ => None
       end.

(** [list_extract(column, position)] on a list of numeric vectors (the
    branch taken when [column[[1]]] is not a data frame).  Position 0 stops
    and an empty [column] fails at [column[[1]]]; otherwise [sapply] returns
    one entry for each element, and an element that has no entry at the
    position contributes [NA], here [None]. *)
Definition list_extract (column : list (list R)) (position : Z)
  : option (list (option R)) :=
  if (position =? 0)%Z then None
  else match column with
       | [] => None
       | _ =>
         if (position <? 0)%Z
         then Some (map (fun column =>
                           let index := (Z.of_nat (length column) + position + 1)%Z in
                           if (index <=? 0)%Z then None
                           else nth_error column (Z.to_nat index - 1))
                        column)
         else Some (map (fun column => nth_error column (Z.to_nat position - 1))
                        column)
       end.

(** [atan2(y, x)] *)
Definition atan2 (y x : R) : R :=
  if Rlt_dec 0 x then atan (y / x)
  else if Rlt_dec x 0
       then (if Rle_dec 0 y then atan (y / x) + PI else atan (y / x) - PI)
       else if Rlt_dec 0 y then PI / 2
            else if Rlt_dec y 0 then - (PI / 2) else 0.

(** [a <= b] as a boolean. *)
Definition Rleb (a b : R) : bool := if Rle_dec a b then true else false.

(** The check geosphere runs on every point it is given: a longitude
    outside [-360, 360] or a latitude outside [-90, 90] stops. *)
Definition valid_point (q : R * R) : bool :=
  Rleb (-360) (fst q) && Rleb (fst q) 360 && Rleb (-90) (snd q) && Rleb (snd q) 90.

(** The haversine formula for two (longitude, latitude) points in degrees,
    in metres on the default radius. *)
Definition haversine (p1 p2 : R * R) : R :=
  let toRad := PI / 180 in
  let lon1 := fst p1 * toRad in
  let lat1 := snd p1 * toRad in
  let lon2 := fst p2 * toRad in
  let lat2 := snd p2 * toRad in
  let dLat := lat2 - lat1 in
  let dLon := lon2 - lon1 in
  let a := sin (dLat / 2) * sin (dLat / 2)
           + cos lat1 * cos lat2 * (sin (dLon / 2) * sin (dLon / 2)) in
  let a := Rmin a 1 in
  2 * atan2 (sqrt a) (sqrt (1 - a)) * 6378137.

(** [geosphere::distHaversine(p1, p2)] *)
Definition distHaversine (p1 p2 : R * R) : option R :=
  if valid_point p1 && valid_point p2 then Some (haversine p1 p2) else None.

(** A list of results, failing if one of them failed. *)
Fixpoint all_some {A} (l : list (option A)) : option (list A) :=
  match l with
  | [] => Some []
  | Some a :: rest =>
      match all_some rest with
      | Some r => Some (a :: r)
      | None => None
      end
  | None :: _ => None
  end.

(** [get_geo_distance(long1, lat1, long2, lat2, units)].  Each element of
    [distance_list] is the one distance of a pair of points, so that the
    extraction of position 1 has no [NA] entry ([no_NA_among_distances]
    below); the distances are kept as real numbers. *)
Definition get_geo_distance (long1 lat1 long2 lat2 : list R)
           (units : String.string) : option (list R) :=
  match map2 (fun x y => (x, y)) long1 lat1, map2 (fun x y => (x, y)) long2 lat2 with
  | Some longlat1, Some longlat2 =>
      match match map2 distHaversine longlat1 longlat2 with
            | Some ds => all_some ds
            | None => None
            end with
      | Some ds =>
          let distance_list := map (fun d => [d]) ds in
          match match list_extract distance_list 1 with
                | Some distance_m => all_some distance_m
                | None => None
                end with
          | Some distance_m =>
              if String.eqb units "km"
              then Some (map (fun d => d / 1000) distance_m)
              else if String.eqb units "miles"
                   then Some (map (fun d => d / 1609.344) distance_m)
                   else Some distance_m
          | None => None
          end
      | None => None
      end
  | _, _ => None
  end.

(** A numeric matrix with one-based cells. *)
Record matrix : Type := {
  nrow : nat;
  ncol : nat;
  cell : nat -> nat -> R
}.

(** [matrix(nrow = n, ncol = m, data = d)] *)
Definition new_matrix (n m : nat) (d : R) : matrix :=
  {| nrow := n; ncol := m; cell := fun _ _ => d |}.

Definition inside (M : matrix) (i j : nat) : bool :=
  ((1 <=? i) && (i <=? nrow M) && (1 <=? j) && (j <=? ncol M))%nat.

(** [M[i, j] <- v]: a subscript out of bounds is an error. *)
Definition assign (M : matrix) (i j : nat) (v : R) : option matrix :=
  if inside M i j
  then Some {| nrow := nrow M; ncol := ncol M;
               cell := fun a b => if ((a =? i) && (b =? j))%nat then v else cell M a b |}
  else None.

(** [M[i, j]] *)
Definition read (M : matrix) (i j : nat) : option R :=
  if inside M i j then Some (cell M i j) else None.

(** [for (i in l) body], stopping at the first error. *)
Fixpoint for_each {S} (l : list nat) (body : nat -> S -> option S) (s : S)
  : option S :=
  match l with
  | [] => Some s
  | i :: rest =>
      match body i s with
      | Some s' => for_each rest body s'
      | None => None
      end
  end.

(** [v[i]] on a numeric vector (an index outside it gives [NA], [None]). *)
Definition at1 (v : list R) (i : nat) : option R :=
  match i with
  | O => None
  | S k => nth_error v k
  end.

(** The body of the inner loop of the distance-matrix chunk. *)
Definition fill_cell (LONG LAT : list R) (ii jj : nat) (distances : matrix)
  : option matrix :=
  if (ii =? jj)%nat then assign distances ii ii 0
  else
    match at1 LONG ii, at1 LAT ii, at1 LONG jj, at1 LAT jj with
    | Some long1, Some lat1, Some long2, Some lat2 =>
        match get_geo_distance [long1] [lat1] [long2] [lat2] "km" with
        | Some [d] =>
            match assign distances ii jj d with
            | Some distances' =>
                match read distances' ii jj with
                | Some v => assign distances' jj ii v
                | None => None
                end
            | None => None
            end
        | _ => None
        end
    | _, _, _, _ => None
    end.

(** The distance-matrix chunk: [matrix(nrow = n, ncol = n, data = -1)] and
    the two nested loops over [1:n] and [1:ii], on the shuffled table. *)
Definition distances (p : list Row) : option matrix :=
  let n := length p in
  let LONG := map (fun r => LONG (loc r)) p in
  let LAT := map (fun r => LAT (loc r)) p in
  for_each (colon 1 n)
           (fun ii => for_each (colon 1 ii) (fun jj => fill_cell LONG LAT ii jj))
           (new_matrix n n (-1)).

(** The distance in kilometres the loop stores for two rows. *)
Definition km_between (a b : Row) : R :=
  haversine (LONG (loc a), LAT (loc a)) (LONG (loc b), LAT (loc b)) / 1000.

(** A row whose coordinates pass the check of geosphere. *)
Definition valid_row (r : Row) : Prop :=
  valid_point (LONG (loc r), LAT (loc r)) = true.

End RStage.

(** ** What the distance loop is to compute *)

Module DistanceSpec.
Import RStage.
Local Open Scope R_scope.

(** Two (longitude, latitude) points in degrees that are one place on the
    sphere: equal latitudes, and either the latitude of a pole or longitudes
    a whole number of turns apart. *)
Definition same_place (p1 p2 : R * R) : Prop :=
  snd p1 = snd p2
  /\ (snd p1 = 90 \/ snd p1 = -90
      \/ exists k : Z, fst p2 - fst p1 = 360 * IZR k).

Section Entries.
Variables LONG LAT : list R.

(** The value the loop computes for the pair [(i, j)]. *)
Definition km (i j : nat) : R :=
  match at1 LONG i, at1 LAT i, at1 LONG j, at1 LAT j with
  | Some a, Some b, Some c, Some d => haversine (a, b) (c, d) / 1000
  | _, _, _, _ => 0
  end.

(** The finished matrix: zero on the diagonal, and off it the distance
    computed from the larger index to the smaller one. *)
Definition entry (a b : nat) : R :=
  if (a =? b)%nat then 0 else if (b <? a)%nat then km a b else km b a.

(** Loop invariant: rows and columns below [ii] are final, and so are the
    cells of row and column [ii] up to position [j]. *)
Definition filled (n ii j : nat) (M : matrix) : Prop :=
  nrow M = n /\ ncol M = n
  /\ (forall a b, (1 <= a < ii)%nat -> (1 <= b < ii)%nat ->
        cell M a b = entry a b)
  /\ (forall b, (1 <= b < j)%nat ->
        cell M ii b = entry ii b /\ cell M b ii = entry b ii).

End Entries.

End DistanceSpec.

(** ** The nearest-neighbour graph *)

Module Nng.

(** Equality of edges is decidable. *)
Definition edge_eq_dec (a b : nat * nat) : {a = b} + {a <> b}.
Proof. decide equality; apply Nat.eq_dec. Defined.

(** An undirected edge is stored with its smaller end first. *)
Definition normalize (e : nat * nat) : nat * nat :=
  (Nat.min (fst e) (snd e), Nat.max (fst e) (snd e)).

(** Modelled from the spec: [igraph::as.undirected] is a library function
    whose body is not in the repository.  "Symmetrize: an undirected edge
    (i,j) exists iff i -> j or j -> i was selected.  Deduplicate." *)
Definition as_undirected (E : list (nat * nat)) : list (nat * nat) :=
  nodup edge_eq_dec (map normalize E).

(** [i] and [j] are joined in the undirected graph [G]. *)
Definition adjacent (G : list (nat * nat)) (i j : nat) : Prop :=
  In (normalize (i, j)) G.

Section Graph.
Context {D : Type} (leb : D -> D -> bool).

(** Insertion before the first entry that is not smaller: among equal keys
    the entry inserted last, which comes first in the input, stays first. *)
Fixpoint insert (key : nat -> D) (i : nat) (l : list nat) : list nat :=
  match l with
  | [] => [i]
  | j :: rest => if leb (key i) (key j) then i :: l else j :: insert key i rest
  end.

Definition order_by (key : nat -> D) (l : list nat) : list nat :=
  fold_right (insert key) [] l.

(** [order(dx[i, ])]: the one-based positions of row [i] by increasing
    value, ties in their original order. *)
Definition order_row (dx : nat -> nat -> D) (n i : nat) : list nat :=
  order_by (dx i) (seq 1 n).

(** The check of the R file, [order(distances[1, ])[2:6]], for any vertex
    and any [k]: positions 2 to [k + 1] of the ordered row. *)
Definition closest_idx (dx : nat -> nat -> D) (n k i : nat) : list nat :=
  firstn k (skipn 1 (order_row dx n i)).

(** Modelled from the spec: [cccd::nng] is a library function whose body is
    not in the repository.  "For each vertex i, select the k vertices with
    smallest distance (excluding itself); ties broken by stable index order
    (lower index wins)." *)
Definition selected (dx : nat -> nat -> D) (n k i : nat) : list nat :=
  firstn k (filter (fun j => negb (j =? i)) (order_row dx n i)).

(** Modelled from the spec: "Produce directed nearest-neighbor edges"
    ([nng(dx, k, mutual = FALSE)]). *)
Definition nng (dx : nat -> nat -> D) (n k : nat) : list (nat * nat) :=
  flat_map (fun i => map (fun j => (i, j)) (selected dx n k i)) (seq 1 n).

(** [g <- as.undirected(nng(dx = distances, k = 5, mutual = FALSE))] *)
Definition graph (dx : nat -> nat -> D) (n : nat) : list (nat * nat) :=
  as_undirected (nng dx n 5).


End Graph.

End Nng.

(** ** The R file from top to bottom, and reproducibility *)

Module RPipeline.
Import RStage Nng.

(** What the R file hands over: the shuffled table (targets and scaled
    altitudes in vertex order), the distance matrix and the graph. *)
Record Prepared : Type := {
  table : list Row;
  dist : matrix;
  g : list (nat * nat)
}.

(** The chunks in order: new columns, seeded shuffle, distance matrix,
    nearest-neighbour graph. *)
Definition preprocess {rr : RRandom} (p : list Location) (s : Seed)
  : option Prepared * Seed :=
  let p := add_columns p in
  let (shuffled, s') := shuffle p s in
  (match shuffled with
   | Some p =>
       match distances p with
       | Some M => Some {| table := p; dist := M;
                           g := graph Rleb (cell M) (length p) |}
       | None => None
       end
   | None => None
   end, s').

End RPipeline.

(** ** Further pieces of the two files *)

Module Further.
Import Notebook RStage.

(** The graph [g] with other targets: [g.y = y']. *)
Definition with_y (g : Data) (y' : Tensor1) : Data :=
  {| x := x g; edge_index := edge_index g; y := y' |}.

(** How many of the epochs [epo, epo + 1, ..., epo + n - 1] satisfy
    [epo % 500 == 0]. *)
Definition printing_epochs (epo n : nat) : nat :=
  length (filter (fun e => e mod 500 =? 0) (seq epo n)).

(** [as.numeric(M)]: the cells of a matrix, column after column. *)
Definition as_numeric (M : matrix) : list R :=
  flat_map (fun j => map (fun i => cell M i j) (seq 1 (nrow M))) (seq 1 (ncol M)).

(** The [Min.] that [summary] shows for a numeric vector (none for an empty
    one). *)
Definition summary_min (v : list R) : option R :=
  match v with
  | [] => None
  | a :: rest => Some (fold_right Rmin a rest)
  end.

End Further.

(** * Part II: stand-ins for the library black boxes, and example inputs *)

(** ** A concrete generator, to run the definitions on examples *)

Module Lcg.
Import Torch.

(** Rotation of [0 .. n-1] by [k] places. *)
Definition rotate (n k : nat) : list nat :=
  skipn k (seq 0 n) ++ firstn k (seq 0 n).

Lemma rotate_perm (n k : nat) : Permutation (rotate n k) (seq 0 n).
Proof.
  unfold rotate.
  eapply perm_trans; [apply Permutation_app_comm|].
  rewrite firstn_skipn. apply Permutation_refl.
Qed.

Definition next (g : Z) : Z := ((1103515245 * g + 12345) mod 2147483648)%Z.

Definition rotating_randperm (n : nat) (g : Z) : list nat * Z :=
  (rotate n (Z.to_nat (g mod (Z.of_nat (S n)))), next g).

#[export] Instance lcg : Random := {|
  Generator := Z;
  manual_seed := fun s => s;
  randperm := rotating_randperm;
  randperm_spec := fun n g => rotate_perm n _
|}.

End Lcg.

(** ** Stand-ins for the black boxes, to run the cells on examples *)

Module Toy.
Import Torch Notebook Gcn.

(** A "convolution" with one weight: every row becomes the weighted sum of
    its entries; the edges are ignored. *)
Definition conv (w : Q) (t : Tensor2) (_ : list nat * list nat) : Tensor2 :=
  map (fun row => [(w * Qsum row)%Q]) t.

(** Keeps everything when the generator state is even, nothing otherwise. *)
Definition keep_by_parity (_ : Q) (t : Tensor2) (g : Z) : list (list bool) * Z :=
  (map (map (fun _ => Z.even g)) t, Lcg.next g).

(** An "optimizer" that halves the first weight. *)
Definition halve (_ : unit) (th : Q * Q) (_ : Q * Q -> option scalar)
  : (Q * Q) * unit :=
  (((1 # 2) * fst th, snd th)%Q, tt).

(** Every weight starts at 1. *)
Definition unit_weight (_ _ : nat) (g : Z) : Q * Z := (1%Q, Lcg.next g).

#[export] Instance layers : @Layers Lcg.lcg :=
  @Build_Layers Lcg.lcg Q unit_weight conv keep_by_parity
                unit (fun _ _ => tt) halve.

(** Three vertices with one feature; the first is held out for testing. *)
Definition tiny : Data :=
  {| x := [[3]; [6]; [9]]%Q; edge_index := ([0; 1], [1; 0]); y := [3; 6; 9]%Q |}.

Definition tiny_train : list bool := [false; true; true].
Definition tiny_test : list bool := [true; false; false].

(** The session one epoch on the three vertices leaves behind, from the
    generator state 40: the mask keeps everything, so [pred] is the input
    scaled by 4/3, and the step halves the first weight. *)
Definition tiny_session : Session :=
  @Build_Session Lcg.lcg layers
    (@Build_Model Lcg.lcg layers (1 # 2) 1%Q true)
    tt
    (Some [300 # 75; 600 # 75; 900 # 75]%Q)
    [Finite (411328125 # 63281250)].

End Toy.

(** ** A stand-in for R's generator *)

Module Rotating.
Import RStage.

(** A stand-in for R's generator: [sample(n)] rotates [1 .. n]. *)
Definition rotating_sample (n : nat) (s : Z) : list nat * Z :=
  (skipn (Z.to_nat (s mod Z.of_nat n)) (seq 1 n)
   ++ firstn (Z.to_nat (s mod Z.of_nat n)) (seq 1 n), Lcg.next s).

Lemma rotating_sample_perm (n : nat) (s : Z) :
  Permutation (fst (rotating_sample n s)) (seq 1 n).
Proof.
  unfold rotating_sample. simpl.
  eapply perm_trans; [apply Permutation_app_comm|].
  rewrite firstn_skipn. apply Permutation_refl.
Qed.

#[export] Instance rotating : RRandom := {|
  Seed := Z;
  set_seed := fun s => s;
  sample := rotating_sample;
  sample_spec := rotating_sample_perm
|}.

Example shuffle_from_any_seed :
  shuffle (rr := rotating) [10; 20; 30; 40; 50] 7%Z
  = (Some [30; 40; 50; 10; 20], Lcg.next 42)
  /\ shuffle (rr := rotating) [10; 20; 30; 40; 50] 8%Z
  = (Some [30; 40; 50; 10; 20], Lcg.next 42).
Proof. split; reflexivity. Qed.

End Rotating.

(** ** Example inputs *)

Module Inputs.
Import Notebook RStage.

(** A graph of 456 isolated vertices with constant features. *)
Definition d456 : Data :=
  {| x := repeat [0%Q] 456; edge_index := ([], []); y := repeat 0%Q 456 |}.

Section Stations.
Local Open Scope R_scope.
Local Open Scope string_scope.

(** Two stations of the table at the same coordinates. *)
Definition station (name : String.string) : Row :=
  {| loc := {| NAME := name; LAT := 39.75; LONG := -121.62; ALT := 533;
               MONTHS := [] |};
     pan := 0; scaled_alt := 0 |}.


(** A third station, some 700 km away, between the two. *)
Definition far_station : Row :=
  {| loc := {| NAME := "LONG BEACH"; LAT := 33.8; LONG := -118.2; ALT := 10;
               MONTHS := [] |};
     pan := 0; scaled_alt := 0 |}.

Definition three_stations : list Row :=
  [station "PARADISE"; far_station; station "PARADISE 2"].

(** A station whose latitude fails the check of geosphere. *)
Definition misplaced : Row :=
  {| loc := {| NAME := "NOWHERE"; LAT := 100; LONG := 0; ALT := 0; MONTHS := [] |};
     pan := 0; scaled_alt := 0 |}.

End Stations.

End Inputs.

Module FeaturesExamples.
Import Notebook Features.

(** A path 0 - 1 - 2 with an isolated vertex 3. *)
Definition path3 : Data :=
  {| x := [[(-1) # 2]; [0]; [1 # 2]; [3]]%Q;
     edge_index := ([0; 1; 1; 2], [1; 0; 2; 1]);
     y := [10; 20; 30; 40]%Q |}.

Example add_degree_path3 :
  option_map x (add_degree path3)
  = Some [[(-1) # 2; 0; 1; 0]; [0; 0; 0; 1]; [1 # 2; 0; 1; 0]; [3; 1; 0; 0]]%Q.
Proof. reflexivity. Qed.

Example add_degree_no_edges :
  add_degree {| x := [[0%Q]]; edge_index := ([], []); y := [0%Q] |} = None.
Proof. reflexivity. Qed.

End FeaturesExamples.

Module NngExamples.
Import Nng.

(** Five points on a line, the distance being the index distance. *)
Definition line (i j : nat) : nat := (i - j) + (j - i).

Example line_order : order_row Nat.leb line 5 3 = [3; 2; 4; 1; 5].
Proof. reflexivity. Qed.

Example line_selected : selected Nat.leb line 5 2 3 = [2; 4].
Proof. reflexivity. Qed.

Example line_closest : closest_idx Nat.leb line 5 2 3 = [2; 4].
Proof. reflexivity. Qed.

Example line_graph :
  as_undirected (nng Nat.leb line 5 2)
  = [(1, 3); (1, 2); (2, 3); (3, 4); (4, 5); (3, 5)].
Proof. reflexivity. Qed.

End NngExamples.

(** ** Example inputs: two stations *)

Module MoreInputs.
Import RStage.
Local Open Scope R_scope.
Local Open Scope string_scope.

Definition paradise : Location :=
  {| NAME := "PARADISE"; LAT := 39.75; LONG := -121.62; ALT := 533;
     MONTHS := [10; 8; 7; 4; 2; 1; 0; 0; 1; 3; 7; 9] |}.

Definition long_beach : Location :=
  {| NAME := "LONG BEACH"; LAT := 33.8; LONG := -118.2; ALT := 10;
     MONTHS := [3; 3; 2; 1; 0; 0; 0; 0; 0; 0; 1; 2] |}.

Definition two_locations : list Location := [paradise; long_beach].

Definition two_rows : list Row := add_columns two_locations.

End MoreInputs.

(** * Part III: facts about the embedding *)

(** ** Facts about the tensor primitives *)

Module TorchFacts.
Import Torch Notebook.

Lemma index_select_map {A} (d : A) (v : list A) (idx : list nat) :
  Forall (fun i => i < length v) idx ->
  index_select v idx = Some (map (fun i => nth i v d) idx).
Proof.
  induction 1 as [|i rest Hi _ IH]; simpl; [reflexivity|].
  rewrite IH.
  destruct (nth_error v i) as [a|] eqn:E.
  - now rewrite (nth_error_nth v i d E).
  - apply nth_error_None in E. lia.
Qed.

Lemma map_nth_seq {A} (d : A) (v : list A) :
  map (fun i => nth i v d) (seq 0 (length v)) = v.
Proof.
  induction v as [|a v IH]; simpl; [reflexivity|].
  f_equal. rewrite <- seq_shift, map_map. exact IH.
Qed.

(** Indexing by a permutation of the positions permutes the entries. *)
Lemma index_select_perm {A} (v : list A) (idx : list nat) :
  Permutation idx (seq 0 (length v)) ->
  exists r, index_select v idx = Some r /\ Permutation r v.
Proof.
  intros P.
  destruct v as [|d v'] eqn:Ev.
  - simpl in P. apply Permutation_sym, Permutation_nil in P. subst idx.
    exists []. split; [reflexivity|constructor].
  - rewrite <- Ev in *.
    exists (map (fun i => nth i v d) idx). split.
    + apply index_select_map.
      apply Forall_forall. intros i Hi.
      apply (Permutation_in _ P) in Hi. apply in_seq in Hi. lia.
    + eapply perm_trans; [apply Permutation_map, P|].
      rewrite map_nth_seq. apply Permutation_refl.
Qed.

Lemma count_true_perm (a b : list bool) :
  Permutation a b -> count_true a = count_true b.
Proof.
  intros P. unfold count_true.
  apply Permutation_length.
  induction P as [|b l l' P IH|b c l|l l' l'' P1 IH1 P2 IH2]; simpl.
  - constructor.
  - destruct b; auto.
  - destruct b, c; auto using perm_swap.
  - eapply perm_trans; eauto.
Qed.

Lemma count_true_not (m : list bool) :
  count_true m + count_true (bitwise_not m) = length m.
Proof.
  unfold count_true, bitwise_not.
  induction m as [|b m IH]; simpl; [reflexivity|].
  destruct b; simpl; lia.
Qed.

Lemma count_true_below (c : Z) (a n : nat) :
  count_true (lt_scalar c (map Z.of_nat (seq a n)))
  = Z.to_nat (Z.min (Z.of_nat n) (Z.max 0 (c - Z.of_nat a))).
Proof.
  unfold count_true, lt_scalar. revert a.
  induction n as [|n IH]; intros a.
  - simpl. lia.
  - cbn [seq map filter].
    destruct (Z.of_nat a <? c)%Z eqn:E.
    + cbn [length]. rewrite IH. apply Z.ltb_lt in E. lia.
    + rewrite IH. apply Z.ltb_ge in E. lia.
Qed.

(** The three cases of unpacking a Python int. *)
Lemma int64_scalar_fits (c : Z) :
  (- 2 ^ 63 <= c < 2 ^ 63)%Z -> int64_scalar c = Some c.
Proof.
  intros H. unfold int64_scalar.
  destruct (Z.leb_spec (- 2 ^ 63) c), (Z.ltb_spec c (2 ^ 63)); try lia.
  reflexivity.
Qed.

Lemma int64_scalar_wraps (c : Z) :
  (2 ^ 63 <= c < 2 ^ 64)%Z -> int64_scalar c = Some (c - 2 ^ 64)%Z.
Proof.
  intros H. unfold int64_scalar.
  destruct (Z.leb_spec (- 2 ^ 63) c), (Z.ltb_spec c (2 ^ 63)),
    (Z.leb_spec (2 ^ 63) c), (Z.ltb_spec c (2 ^ 64)); try lia; reflexivity.
Qed.

Lemma int64_scalar_overflow (c : Z) :
  (c < - 2 ^ 63 \/ 2 ^ 64 <= c)%Z -> int64_scalar c = None.
Proof.
  intros H. unfold int64_scalar.
  destruct (Z.leb_spec (- 2 ^ 63) c), (Z.ltb_spec c (2 ^ 63)),
    (Z.leb_spec (2 ^ 63) c), (Z.ltb_spec c (2 ^ 64)); try lia; reflexivity.
Qed.

Section MaskFacts.
Context {rnd : Random}.

(** What a call of [make_train_test_masks] returns on a non-negative size
    and a train size that unpacks into the scalar [s]: the unshuffled mask
    indexed by the drawn permutation, and its negation. *)
Lemma make_train_test_masks_returns (n : Z) (t : Q) (s : Z) (g : Generator) :
  (0 <= n)%Z ->
  int64_scalar (py_int t) = Some s ->
  exists train,
    make_train_test_masks n t g
      = Some ((train, bitwise_not train), snd (randperm (Z.to_nat n) g))
    /\ Permutation train (lt_scalar s (map Z.of_nat (seq 0 (Z.to_nat n)))).
Proof.
  intros Hn Hs.
  unfold make_train_test_masks, Cell.bind, Cell.lift, Cell.draw, Cell.ret,
    arange, scalar_gt.
  destruct (n <? 0)%Z eqn:E; [apply Z.ltb_lt in E; lia|].
  rewrite Hs.
  set (un := lt_scalar s (map Z.of_nat (seq 0 (Z.to_nat n)))).
  pose proof (randperm_spec (Z.to_nat n) g) as P.
  destruct (randperm (Z.to_nat n) g) as [perm g'] eqn:Er. simpl in P.
  assert (L : length un = Z.to_nat n).
  { unfold un, lt_scalar. now rewrite !length_map, length_seq. }
  rewrite <- L in P.
  destruct (index_select_perm un perm P) as (r & Hr & Pr).
  exists r. rewrite Hr. simpl. split; [reflexivity|exact Pr].
Qed.

(** A train size that does not unpack makes the call raise. *)
Lemma make_train_test_masks_overflow (n : Z) (t : Q) (g : Generator) :
  int64_scalar (py_int t) = None -> make_train_test_masks n t g = None.
Proof.
  intros Hs.
  unfold make_train_test_masks, Cell.bind, Cell.lift, scalar_gt.
  destruct (arange n); [|reflexivity]. now rewrite Hs.
Qed.

End MaskFacts.

End TorchFacts.

(** ** The train/test partition *)

Module PartitionFacts.
Import Torch TorchFacts Notebook.

Lemma length_perm_mask (n : nat) (c : Z) (train : list bool) :
  Permutation train (lt_scalar c (map Z.of_nat (seq 0 n))) ->
  length train = n.
Proof.
  intros P. rewrite (Permutation_length P).
  unfold lt_scalar. now rewrite !length_map, length_seq.
Qed.

Lemma count_perm_mask (n : nat) (c : Z) (train : list bool) :
  Permutation train (lt_scalar c (map Z.of_nat (seq 0 n))) ->
  count_true train = Z.to_nat (Z.min (Z.of_nat n) (Z.max 0 c)).
Proof.
  intros P. rewrite (count_true_perm _ _ P), count_true_below.
  f_equal. simpl. f_equal. f_equal. lia.
Qed.

Lemma nth_bitwise_not (m : list bool) (v : nat) :
  v < length m -> nth v (bitwise_not m) false = negb (nth v m false).
Proof.
  intros H. unfold bitwise_not.
  rewrite (nth_indep _ false (negb false)) by now rewrite length_map.
  apply map_nth.
Qed.

Lemma py_int_inject (c : Z) : py_int (inject_Z c) = c.
Proof. unfold py_int. simpl. apply Z.quot_1_r. Qed.

Lemma py_int_reference : py_int (train_fraction * inject_Z 456) = 91%Z.
Proof. reflexivity. Qed.

Section Claims.
Context {rnd : Random}.

(** C10, as the code has it.  [make_train_test_masks] truncates the
    requested train size toward zero: on every size [n >= 0] and every
    rational [t] whose truncation fits a signed 64-bit integer it returns (it
    does not raise), and its train mask has exactly [min n (max 0 (int t))]
    entries set; the call of the notebook, [t = 0.2 * 456], sets exactly
    91. *)
Theorem make_train_test_masks_truncates (n : Z) (t : Q) (g : Generator) :
  (0 <= n)%Z ->
  (- 2 ^ 63 <= py_int t < 2 ^ 63)%Z ->
  (exists train test g',
      make_train_test_masks n t g = Some ((train, test), g')
      /\ Z.of_nat (count_true train) = Z.min n (Z.max 0 (py_int t)))
  /\ (exists train test g',
      make_train_test_masks 456 (train_fraction * inject_Z 456) g
        = Some ((train, test), g')
      /\ count_true train = 91).
Proof.
  intros Hn Ht. split.
  - destruct (make_train_test_masks_returns n t (py_int t) g Hn
                (int64_scalar_fits _ Ht)) as (train & E & P).
    exists train, (bitwise_not train), (snd (randperm (Z.to_nat n) g)).
    split; [exact E|].
    rewrite (count_perm_mask _ _ _ P). lia.
  - destruct (make_train_test_masks_returns 456%Z
                (train_fraction * inject_Z 456) 91%Z g) as (train & E & P);
      [lia|reflexivity|].
    exists train, (bitwise_not train), (snd (randperm (Z.to_nat 456) g)).
    split; [exact E|].
    rewrite (count_perm_mask _ _ _ P). reflexivity.
Qed.

(** C4.  For a vertex count [n] and a configured train count [c <= n] that
    the comparison can take (a count below [2^63], as every count of entries
    of a tensor is) the two masks have one entry per vertex, the train mask
    has exactly [c] entries set, every vertex is in exactly one of the two
    masks (disjoint and exhaustive), the two counts add up to [n], and the
    call reads nothing of a graph but its vertex count, so features and
    targets cannot influence it. *)
Theorem masks_partition_exactly (n c : nat) (g : Generator) :
  c <= n ->
  (Z.of_nat c < 2 ^ 63)%Z ->
  exists train test g',
    make_train_test_masks (Z.of_nat n) (inject_Z (Z.of_nat c)) g
      = Some ((train, test), g')
    /\ length train = n /\ length test = n
    /\ count_true train = c
    /\ (forall v, v < n -> nth v test false = negb (nth v train false))
    /\ count_true train + count_true test = n
    /\ (forall d : Data, num_nodes d = n ->
          make_train_test_masks (Z.of_nat (num_nodes d))
                                (inject_Z (Z.of_nat c)) g
          = Some ((train, test), g')).
Proof.
  intros Hc Hfit.
  destruct (make_train_test_masks_returns (Z.of_nat n)
              (inject_Z (Z.of_nat c)) (Z.of_nat c) g) as (train & E & P);
    [lia|rewrite py_int_inject; apply int64_scalar_fits; lia|].
  rewrite Nat2Z.id in *.
  pose proof (length_perm_mask _ _ _ P) as L.
  exists train, (bitwise_not train), (snd (randperm n g)).
  repeat split.
  - exact E.
  - exact L.
  - unfold bitwise_not. now rewrite length_map.
  - rewrite (count_perm_mask _ _ _ P). lia.
  - intros v Hv. apply nth_bitwise_not. lia.
  - rewrite count_true_not. exact L.
  - intros d Hd. rewrite Hd. exact E.
Qed.

(** The counts of the reference call, on any graph of 456 vertices. *)
Lemma reference_counts (d : Data) (g : Generator) :
  num_nodes d = 456 ->
  exists train g',
    notebook_masks d g = Some ((train, bitwise_not train), g')
    /\ count_true train = 91 /\ count_true (bitwise_not train) = 365.
Proof.
  intros Hd. unfold notebook_masks. rewrite Hd.
  destruct (make_train_test_masks_returns (Z.of_nat 456)
              (train_fraction * inject_Z (Z.of_nat 456)) 91%Z g)
    as (train & E & P); [lia|reflexivity|].
  pose proof (count_perm_mask _ _ _ P) as C.
  pose proof (length_perm_mask _ _ _ P) as L.
  pose proof (count_true_not train) as N.
  change (Z.to_nat (Z.min (Z.of_nat (Z.to_nat (Z.of_nat 456))) (Z.max 0 91)))
    with 91 in C.
  change (Z.to_nat (Z.of_nat 456)) with 456 in L.
  exists train, (snd (randperm (Z.to_nat (Z.of_nat 456)) g)).
  split; [exact E|]. split; [exact C|]. lia.
Qed.

(** C2, as the code has it.  In the reference run (456 vertices) the train
    mask marks [int(0.2 * 456) = 91] vertices, about 20% of them, and the
    test mask the remaining 365, about 80%. *)
Theorem reference_split_is_91_365 (d : Data) (g : Generator) :
  num_nodes d = 456 ->
  exists train test g',
    notebook_masks d g = Some ((train, test), g')
    /\ count_true train = 91 /\ count_true test = 365
    /\ approx_fraction (2 # 10) 456 (count_true train)
    /\ approx_fraction (8 # 10) 456 (count_true test).
Proof.
  intros Hd.
  destruct (reference_counts d g Hd) as (train & g' & E & C & T).
  exists train, (bitwise_not train), g'.
  split; [exact E|]. rewrite C, T.
  repeat split; unfold approx_fraction; vm_compute; discriminate.
Qed.

(** C6, as the code has it.  [make_train_test_masks] checks no partition
    size.  With a train size that truncates to zero or less (and fits a
    signed 64-bit integer) it returns an all-[False] train mask; with one
    that truncates to [n] or more (and fits) it returns an all-[False] test
    mask; and with one that truncates into [2^63, 2^64), which the
    comparison wraps around to a negative scalar, it returns an all-[False]
    train mask again.  In none of the three cases does it raise. *)
Theorem degenerate_masks_are_returned (n : nat) (t : Q) (g : Generator) :
  ((- 2 ^ 63 <= py_int t <= 0)%Z ->
     exists train test g',
       make_train_test_masks (Z.of_nat n) t g = Some ((train, test), g')
       /\ count_true train = 0 /\ count_true test = n)
  /\ ((Z.of_nat n <= py_int t < 2 ^ 63)%Z ->
     exists train test g',
       make_train_test_masks (Z.of_nat n) t g = Some ((train, test), g')
       /\ count_true train = n /\ count_true test = 0)
  /\ ((2 ^ 63 <= py_int t < 2 ^ 64)%Z ->
     exists train test g',
       make_train_test_masks (Z.of_nat n) t g = Some ((train, test), g')
       /\ count_true train = 0 /\ count_true test = n).
Proof.
  assert (K : forall s, int64_scalar (py_int t) = Some s ->
            exists train,
              make_train_test_masks (Z.of_nat n) t g
              = Some ((train, bitwise_not train), snd (randperm n g))
              /\ count_true train = Z.to_nat (Z.min (Z.of_nat n) (Z.max 0 s))
              /\ count_true train + count_true (bitwise_not train) = n).
  { intros s Hs.
    destruct (make_train_test_masks_returns (Z.of_nat n) t s g)
      as (train & E & P); [lia|exact Hs|].
    rewrite Nat2Z.id in *.
    exists train. split; [exact E|].
    split; [exact (count_perm_mask _ _ _ P)|].
    rewrite count_true_not. exact (length_perm_mask _ _ _ P). }
  split; [|split]; intros H.
  - destruct (K (py_int t)) as (train & E & C & N);
      [apply int64_scalar_fits; lia|].
    exists train, (bitwise_not train), (snd (randperm n g)).
    split; [exact E|]. lia.
  - destruct (K (py_int t)) as (train & E & C & N);
      [apply int64_scalar_fits; lia|].
    exists train, (bitwise_not train), (snd (randperm n g)).
    split; [exact E|]. lia.
  - destruct (K (py_int t - 2 ^ 64)%Z) as (train & E & C & N);
      [apply int64_scalar_wraps; lia|].
    exists train, (bitwise_not train), (snd (randperm n g)).
    split; [exact E|]. lia.
Qed.

End Claims.

(** Witness of the amended C10: the reference call on the rotating
    generator. *)
Lemma make_train_test_masks_truncates_witness :
  (0 <= 456)%Z
  /\ (- 2 ^ 63 <= py_int (train_fraction * inject_Z 456) < 2 ^ 63)%Z
  /\ exists train test g',
    make_train_test_masks (rnd := Lcg.lcg) 456 (train_fraction * inject_Z 456) 42%Z
      = Some ((train, test), g')
    /\ Z.of_nat (count_true train)
       = Z.min 456 (Z.max 0 (py_int (train_fraction * inject_Z 456))).
Proof.
  assert (H : (- 2 ^ 63 <= py_int (train_fraction * inject_Z 456) < 2 ^ 63)%Z)
    by (rewrite py_int_reference; lia).
  split; [lia|]. split; [exact H|].
  apply (@make_train_test_masks_truncates Lcg.lcg 456%Z
           (train_fraction * inject_Z 456) 42%Z); [lia|exact H].
Defined.

(** Witness of C4: five vertices, two of them for training. *)
Lemma masks_partition_exactly_witness :
  2 <= 5 /\ (Z.of_nat 2 < 2 ^ 63)%Z /\
  exists train test g',
    make_train_test_masks (rnd := Lcg.lcg) 5 (inject_Z 2) 42%Z
      = Some ((train, test), g')
    /\ length train = 5 /\ length test = 5
    /\ count_true train = 2
    /\ (forall v, v < 5 -> nth v test false = negb (nth v train false))
    /\ count_true train + count_true test = 5
    /\ (forall d : Data, num_nodes d = 5 ->
          make_train_test_masks (rnd := Lcg.lcg) (Z.of_nat (num_nodes d))
                                (inject_Z 2) 42%Z
          = Some ((train, test), g')).
Proof.
  split; [lia|]. split; [lia|].
  apply (@masks_partition_exactly Lcg.lcg 5 2 42%Z); lia.
Defined.

End PartitionFacts.

(** ** The partition on concrete inputs *)

Module PartitionExamples.
Import Torch TorchFacts Notebook PartitionFacts Inputs.

Example notebook_masks_small :
  make_train_test_masks (rnd := Lcg.lcg) 5 (23 # 10) 7%Z
  = Some (([true; false; false; false; true], [false; true; true; true; false]),
          Lcg.next 7).
Proof. reflexivity. Qed.

Example negative_size_raises :
  make_train_test_masks (rnd := Lcg.lcg) (-1) 1 42%Z = None.
Proof. reflexivity. Qed.

(** Witness of the amended C2: the 456 isolated vertices. *)
Lemma reference_split_is_91_365_witness :
  num_nodes d456 = 456 /\
  exists train test g',
    notebook_masks (rnd := Lcg.lcg) d456 42%Z = Some ((train, test), g')
    /\ count_true train = 91 /\ count_true test = 365
    /\ approx_fraction (2 # 10) 456 (count_true train)
    /\ approx_fraction (8 # 10) 456 (count_true test).
Proof.
  split; [reflexivity|].
  apply (@reference_split_is_91_365 Lcg.lcg d456 42%Z). reflexivity.
Defined.

(** C2 as stated fails: no run on 456 vertices, whatever the generator does,
    has a train mask of about 80% of the vertices or a test mask of about
    20% of them. *)
Lemma reference_split_is_not_80_20 :
  ~ exists (rnd : Random) (d : Data) (g : Generator) train test g',
      num_nodes d = 456
      /\ notebook_masks d g = Some ((train, test), g')
      /\ (approx_fraction (8 # 10) 456 (count_true train)
          \/ approx_fraction (2 # 10) 456 (count_true test)).
Proof.
  intros (rnd & d & g & train & test & g' & Hd & E & H).
  destruct (reference_counts d g Hd) as (train0 & g0 & E0 & C & T).
  rewrite E in E0. injection E0 as -> -> _.
  rewrite C, T in H.
  destruct H as [H|H]; unfold approx_fraction in H; vm_compute in H;
    apply H; reflexivity.
Qed.

(** C6 as stated fails: on three vertices a train size of 0 gives an empty
    train partition and a train size of 3 an empty test partition, and both
    calls return their masks; no generator makes either call raise. *)
Lemma empty_partition_is_not_an_error :
  make_train_test_masks (rnd := Lcg.lcg) 3 0 42%Z
    = Some (([false; false; false], [true; true; true]), Lcg.next 42)
  /\ make_train_test_masks (rnd := Lcg.lcg) 3 (inject_Z 3) 42%Z
    = Some (([true; true; true], [false; false; false]), Lcg.next 42)
  /\ ~ (exists (rnd : Random) (g : Generator),
          make_train_test_masks 3 0 g = None
          \/ make_train_test_masks 3 (inject_Z 3) g = None).
Proof.
  split; [reflexivity|]. split; [reflexivity|].
  intros (rnd & g & [H|H]).
  - destruct (make_train_test_masks_returns 3%Z 0%Q 0%Z g) as (tr & E & _);
      [lia|reflexivity|].
    congruence.
  - destruct (make_train_test_masks_returns 3%Z (inject_Z 3) 3%Z g)
      as (tr & E & _); [lia|reflexivity|].
    congruence.
Qed.

(** Witness of the amended C6: the three degenerate sizes on three
    vertices. *)
Lemma degenerate_masks_are_returned_witness :
  (exists train test g',
     make_train_test_masks (rnd := Lcg.lcg) 3 0 42%Z = Some ((train, test), g')
     /\ count_true train = 0 /\ count_true test = 3)
  /\ (exists train test g',
     make_train_test_masks (rnd := Lcg.lcg) 3 (inject_Z 3) 42%Z
       = Some ((train, test), g')
     /\ count_true train = 3 /\ count_true test = 0)
  /\ (exists train test g',
     make_train_test_masks (rnd := Lcg.lcg) 3 (inject_Z (2 ^ 63)) 42%Z
       = Some ((train, test), g')
     /\ count_true train = 0 /\ count_true test = 3).
Proof.
  split; [|split].
  - apply (proj1 (@degenerate_masks_are_returned Lcg.lcg 3 0%Q 42%Z)).
    change (py_int 0%Q) with 0%Z. lia.
  - apply (proj1 (proj2 (@degenerate_masks_are_returned Lcg.lcg 3 (inject_Z 3) 42%Z))).
    rewrite py_int_inject. simpl. lia.
  - apply (proj2 (proj2 (@degenerate_masks_are_returned Lcg.lcg 3
                           (inject_Z (2 ^ 63)) 42%Z))).
    rewrite py_int_inject. lia.
Defined.

(** C10 as stated fails for train sizes that do not fit a signed 64-bit
    integer.  On three vertices the call with the double [1e30] raises,
    whatever the generator; and the call with [2^63] returns a train mask
    that has no entry set, not the [min 3 (2^63) = 3] of the claim. *)
Lemma huge_train_size_is_not_truncated :
  ~ (exists (rnd : Random) (g : Generator) r,
        make_train_test_masks 3 (inject_Z 1000000000000000019884624838656) g
        = Some r)
  /\ ~ (exists (rnd : Random) (g : Generator) train test g',
        make_train_test_masks 3 (inject_Z (2 ^ 63)) g = Some ((train, test), g')
        /\ Z.of_nat (count_true train)
           = Z.min 3 (Z.max 0 (py_int (inject_Z (2 ^ 63))))).
Proof.
  split.
  - intros (rnd & g & r & E).
    rewrite make_train_test_masks_overflow in E; [discriminate|].
    rewrite py_int_inject. apply int64_scalar_overflow. lia.
  - intros (rnd & g & train & test & g' & E & C).
    destruct (make_train_test_masks_returns 3%Z (inject_Z (2 ^ 63))
                (2 ^ 63 - 2 ^ 64)%Z g) as (tr & E' & P);
      [lia|rewrite py_int_inject; apply int64_scalar_wraps; lia|].
    rewrite E in E'. injection E' as -> _ _.
    rewrite (count_perm_mask _ _ _ P), py_int_inject in C.
    change (Z.to_nat 3) with 3 in C. lia.
Qed.

End PartitionExamples.

Module FeaturesFacts.
Import Notebook Features.

Lemma forallb_ltb (l : list nat) (N : nat) :
  Forall (fun i => i < N) l -> forallb (fun i => i <? N) l = true.
Proof.
  intros H. apply forallb_forall. intros i Hi.
  apply Nat.ltb_lt. revert i Hi. now apply Forall_forall.
Qed.

Lemma degree_given (index : list nat) (N : nat) :
  Forall (fun i => i < N) index ->
  degree index (Some N) = Some (map (count_occ Nat.eq_dec index) (seq 0 N)).
Proof.
  intros H. unfold degree. simpl. now rewrite forallb_ltb.
Qed.

Lemma degree_inferred (index : list nat) :
  index <> [] ->
  degree index None
  = Some (map (count_occ Nat.eq_dec index) (seq 0 (S (list_max index)))).
Proof.
  intros H. unfold degree.
  assert (E : maybe_num_nodes index None = S (list_max index)).
  { destruct index; [congruence|reflexivity]. }
  rewrite E, forallb_ltb; [reflexivity|].
  apply Forall_forall. intros i Hi.
  pose proof (proj1 (list_max_le index (list_max index)) (Nat.le_refl _)) as M.
  rewrite Forall_forall in M. specialize (M i Hi). lia.
Qed.

(** Every degree is bounded by the largest one among the vertices that occur
    as a source, because a vertex that never occurs has degree zero. *)
Lemma count_le_max (index : list nat) (v : nat) :
  count_occ Nat.eq_dec index v
  <= list_max (map (count_occ Nat.eq_dec index) (seq 0 (S (list_max index)))).
Proof.
  destruct (le_lt_dec v (list_max index)) as [Hv|Hv].
  - pose proof (proj1 (list_max_le
        (map (count_occ Nat.eq_dec index) (seq 0 (S (list_max index))))
        _) (Nat.le_refl _)) as M.
    rewrite Forall_forall in M. apply M.
    apply in_map_iff. exists v. split; [reflexivity|].
    apply in_seq. lia.
  - assert (N : ~ In v index).
    { intros Hin.
      pose proof (proj1 (list_max_le index _) (Nat.le_refl _)) as M.
      rewrite Forall_forall in M. specialize (M v Hin). lia. }
    apply (count_occ_not_In Nat.eq_dec) in N. lia.
Qed.

(** The largest degree is attained, at a vertex that occurs as a source. *)
Lemma max_attained (index : list nat) :
  exists v, v <= list_max index
    /\ count_occ Nat.eq_dec index v
       = list_max (map (count_occ Nat.eq_dec index) (seq 0 (S (list_max index)))).
Proof.
  set (l := map (count_occ Nat.eq_dec index) (seq 0 (S (list_max index)))).
  assert (Hl : l <> []) by (unfold l; simpl; discriminate).
  assert (Hin : In (list_max l) l).
  { clearbody l. induction l as [|a l IH]; [congruence|].
    simpl. destruct l as [|b l'].
    - left. simpl. lia.
    - destruct (le_lt_dec (list_max (b :: l')) a).
      + left. lia.
      + right. replace (Nat.max a (list_max (b :: l'))) with (list_max (b :: l')) by lia.
        apply IH. discriminate. }
  apply in_map_iff in Hin. destruct Hin as (v & Ev & Hv).
  apply in_seq in Hv. exists v. split; [lia|exact Ev].
Qed.

Lemma length_one_hot_row (C d : nat) : length (one_hot_row C d) = C.
Proof. unfold one_hot_row. now rewrite length_map, length_seq. Qed.

Lemma nth_map_seq {A} (f : nat -> A) (d : A) (a n j : nat) :
  j < n -> nth j (map f (seq a n)) d = f (a + j).
Proof.
  revert a j. induction n as [|n IH]; intros a j H; [lia|].
  destruct j as [|j]; simpl.
  - f_equal. lia.
  - rewrite IH by lia. f_equal. lia.
Qed.

Lemma nth_one_hot_row (C d j : nat) :
  nth j (one_hot_row C d) 0%Q = if (j <? C) && (j =? d) then 1%Q else 0%Q.
Proof.
  unfold one_hot_row.
  destruct (Nat.ltb_spec j C) as [H|H]; simpl.
  - now rewrite nth_map_seq.
  - apply nth_overflow. rewrite length_map, length_seq. exact H.
Qed.

Lemma count_ones_segment (d a n : nat) :
  count_ones (map (fun j => if j =? d then 1%Q else 0%Q) (seq a n))
  = if (a <=? d) && (d <? a + n) then 1 else 0.
Proof.
  unfold count_ones. revert a.
  induction n as [|n IH]; intros a; simpl.
  - destruct (Nat.leb_spec a d), (Nat.ltb_spec d (a + 0)); simpl; try reflexivity; lia.
  - destruct (Nat.eqb_spec a d) as [->|Hne]; simpl; rewrite IH.
    + destruct (Nat.leb_spec (S d) d), (Nat.leb_spec d d),
        (Nat.ltb_spec d (d + S n)); simpl; try reflexivity; lia.
    + destruct (Nat.leb_spec (S a) d), (Nat.leb_spec a d),
        (Nat.ltb_spec d (S a + n)), (Nat.ltb_spec d (a + S n));
        simpl; try reflexivity; lia.
Qed.

Lemma count_ones_one_hot_row (C d : nat) :
  d < C -> count_ones (one_hot_row C d) = 1.
Proof.
  intros H. unfold one_hot_row. rewrite count_ones_segment.
  destruct (Nat.ltb_spec d (0 + C)); [reflexivity|lia].
Qed.

Lemma nth_cat_last (a b : Tensor2) (v : nat) :
  length a = length b -> v < length a ->
  nth v (map (fun rs => fst rs ++ snd rs) (combine a b)) []
  = nth v a [] ++ nth v b [].
Proof.
  revert b v. induction a as [|r a IH]; intros [|s b] v L Hv; simpl in *; try lia.
  destruct v as [|v]; [reflexivity|].
  apply IH; lia.
Qed.

End FeaturesFacts.

Module DegreeFacts.
Import Notebook Features FeaturesFacts.

Lemma count_occ_sources (a b : list nat) (v : nat) :
  length a = length b ->
  count_occ Nat.eq_dec a v
  = length (filter (fun e => fst e =? v) (combine a b)).
Proof.
  revert b. induction a as [|i a IH]; intros [|j b] L; simpl in *; try lia.
  destruct (Nat.eq_dec i v) as [->|Hne].
  - rewrite Nat.eqb_refl. simpl. f_equal. apply IH. lia.
  - destruct (Nat.eqb_spec i v); [contradiction|]. apply IH. lia.
Qed.

(** In a graph stored with both directions of every edge, the number of
    times a vertex occurs as a source is its number of neighbours. *)
Lemma sources_count_neighbours (g : Data) (v : nat) :
  undirected g ->
  count_occ Nat.eq_dec (fst (edge_index g)) v = undirected_degree g v.
Proof.
  intros (L & ND & Sym).
  unfold undirected_degree, neighbours.
  rewrite (count_occ_sources _ (snd (edge_index g)) v L).
  fold (edges g).
  set (A := map snd (filter (fun e => fst e =? v) (edges g))).
  set (B := map fst (filter (fun e => snd e =? v) (edges g))).
  assert (NA : NoDup A).
  { unfold A. apply NoDup_map_NoDup_ForallPairs.
    - intros [a1 b1] [a2 b2] H1 H2 E. simpl in E.
      apply filter_In in H1, H2. simpl in H1, H2.
      destruct H1 as [_ H1], H2 as [_ H2].
      apply Nat.eqb_eq in H1, H2. congruence.
    - now apply NoDup_filter. }
  assert (IB : incl B A).
  { intros u Hu. unfold B in Hu. apply in_map_iff in Hu.
    destruct Hu as ([a b] & <- & Hab). apply filter_In in Hab.
    simpl in Hab. destruct Hab as [Hin Hb]. apply Nat.eqb_eq in Hb. subst b.
    unfold A. apply in_map_iff. exists (v, a). split; [reflexivity|].
    apply filter_In. split; [now apply Sym|]. simpl. apply Nat.eqb_refl. }
  transitivity (length A).
  - unfold A. now rewrite length_map.
  - apply Permutation_length, NoDup_Permutation.
    + exact NA.
    + apply NoDup_nodup.
    + intros u. rewrite nodup_In, in_app_iff. split; [tauto|].
      intros [H|H]; [exact H|now apply IB].
Qed.

(** C9.  On a graph with at least one edge whose sources are vertices of the
    graph, the cell succeeds and appends to every vertex's feature row a
    vector of length [max_deg + 1], the same for all vertices, where
    [max_deg] is the largest degree observed; that vector has a 1 at the
    index equal to the vertex's degree, 0 everywhere else, hence exactly one
    1; the new row is the old row (the scaled altitude) followed by it; and
    when the edge list stores an undirected graph the degree is the
    vertex's number of neighbours. *)
Theorem one_hot_degree_appended (g : Data) :
  fst (edge_index g) <> [] ->
  Forall (fun i => i < num_nodes g) (fst (edge_index g)) ->
  exists g' max_deg,
    add_degree g = Some g'
    /\ num_nodes g' = num_nodes g
    /\ edge_index g' = edge_index g /\ y g' = y g
    /\ (forall v, count_occ Nat.eq_dec (fst (edge_index g)) v <= max_deg)
    /\ (exists v, v < num_nodes g
          /\ count_occ Nat.eq_dec (fst (edge_index g)) v = max_deg)
    /\ forall v, v < num_nodes g ->
         let d := count_occ Nat.eq_dec (fst (edge_index g)) v in
         exists oh,
           nth v (x g') [] = nth v (x g) [] ++ oh
           /\ length oh = max_deg + 1
           /\ nth d oh 0%Q = 1%Q
           /\ (forall j, j <> d -> nth j oh 0%Q = 0%Q)
           /\ count_ones oh = 1
           /\ (undirected g -> d = undirected_degree g v).
Proof.
  intros Hne Hin.
  set (idx := fst (edge_index g)) in *.
  set (cnt := count_occ Nat.eq_dec idx).
  set (md := list_max (map cnt (seq 0 (S (list_max idx))))).
  assert (Hle : forall v, cnt v <= md) by (intro v; apply count_le_max).
  assert (Hoh : one_hot (map cnt (seq 0 (num_nodes g))) (md + 1)
                = Some (map (one_hot_row (md + 1)) (map cnt (seq 0 (num_nodes g))))).
  { unfold one_hot. rewrite forallb_ltb; [reflexivity|].
    apply Forall_forall. intros d Hd. apply in_map_iff in Hd.
    destruct Hd as (v & <- & _). specialize (Hle v). lia. }
  assert (Hlen : length (x g)
                 = length (map (one_hot_row (md + 1)) (map cnt (seq 0 (num_nodes g))))).
  { rewrite !length_map, length_seq. reflexivity. }
  assert (Hrun : add_degree g
    = Some {| x := map (fun rs => fst rs ++ snd rs)
                     (combine (x g)
                        (map (one_hot_row (md + 1)) (map cnt (seq 0 (num_nodes g)))));
              edge_index := edge_index g; y := y g |}).
  { unfold add_degree. fold idx. rewrite (degree_inferred idx Hne). cbn [obind].
    replace (tensor_max (map (count_occ Nat.eq_dec idx) (seq 0 (S (list_max idx)))))
      with (Some md) by reflexivity.
    cbn [obind]. unfold OneHotDegree. fold idx. rewrite (degree_given idx _ Hin).
    cbn [obind]. fold cnt. fold md.
    rewrite Hoh. cbn [obind]. unfold cat_last.
    rewrite Hlen, Nat.eqb_refl. reflexivity. }
  eexists. exists md. split; [exact Hrun|].
  unfold num_nodes at 1. cbn [x edge_index y].
  repeat split.
  - rewrite length_map, length_combine, <- Hlen. apply Nat.min_id.
  - exact Hle.
  - destruct (max_attained idx) as (v & Hv & Ev).
    exists v. split; [|exact Ev].
    destruct (Nat.lt_ge_cases v (num_nodes g)) as [H|H]; [exact H|].
    exfalso.
    assert (Hmem : In (list_max idx) idx).
    { clear -Hne. induction idx as [|a l IH]; [congruence|].
      simpl. destruct l as [|b l'].
      - left. simpl. lia.
      - destruct (le_lt_dec (list_max (b :: l')) a).
        + left. lia.
        + right.
          replace (Nat.max a (list_max (b :: l'))) with (list_max (b :: l')) by lia.
          apply IH. discriminate. }
    rewrite Forall_forall in Hin. specialize (Hin _ Hmem). lia.
  - intros v Hv.
    exists (one_hot_row (md + 1) (cnt v)).
    assert (Hd : cnt v < md + 1) by (specialize (Hle v); lia).
    repeat split.
    + rewrite nth_cat_last by (exact Hlen || exact Hv).
      f_equal.
      rewrite (nth_indep _ [] (one_hot_row (md + 1) 0))
        by (rewrite <- Hlen; exact Hv).
      rewrite map_nth.
      rewrite (nth_indep _ 0 (cnt 0)) by now rewrite length_map, length_seq.
      rewrite map_nth, seq_nth by exact Hv. reflexivity.
    + apply length_one_hot_row.
    + rewrite nth_one_hot_row, Nat.eqb_refl.
      destruct (Nat.ltb_spec (cnt v) (md + 1)); [reflexivity|lia].
    + intros j Hj. rewrite nth_one_hot_row.
      destruct (Nat.eqb_spec j (cnt v)); [contradiction|].
      now rewrite andb_false_r.
    + now apply count_ones_one_hot_row.
    + intros U. now apply sources_count_neighbours.
Qed.

(** Witness of C9: the path 0 - 1 - 2 with the isolated vertex 3. *)
Lemma one_hot_degree_appended_witness :
  exists g' max_deg,
    add_degree FeaturesExamples.path3 = Some g'
    /\ num_nodes g' = 4
    /\ edge_index g' = edge_index FeaturesExamples.path3
    /\ y g' = y FeaturesExamples.path3
    /\ (forall v, count_occ Nat.eq_dec [0; 1; 1; 2] v <= max_deg)
    /\ (exists v, v < 4 /\ count_occ Nat.eq_dec [0; 1; 1; 2] v = max_deg)
    /\ forall v, v < 4 ->
         let d := count_occ Nat.eq_dec [0; 1; 1; 2] v in
         exists oh,
           nth v (x g') [] = nth v (x FeaturesExamples.path3) [] ++ oh
           /\ length oh = max_deg + 1
           /\ nth d oh 0%Q = 1%Q
           /\ (forall j, j <> d -> nth j oh 0%Q = 0%Q)
           /\ count_ones oh = 1
           /\ (undirected FeaturesExamples.path3
               -> d = undirected_degree FeaturesExamples.path3 v).
Proof.
  apply (one_hot_degree_appended FeaturesExamples.path3).
  - discriminate.
  - repeat constructor.
Defined.

End DegreeFacts.

Module GcnFacts.
Import Torch Notebook Gcn.

Section Loop.
Context {rnd : Random} {layers : Layers}.

(** In evaluation mode no mask is drawn and the generator is left alone. *)
Lemma forward_eval (m : Model) (g : Data) (gen : Generator) :
  forward (eval_mode m) g gen
  = Some (forward_with None (parameters m) g, gen).
Proof. reflexivity. Qed.

(** In training mode a mask is drawn and applied. *)
Lemma dropout_keep_training (m : Model) (g : Data) (gen : Generator) :
  training m = true ->
  exists k gen', dropout_keep m g gen = Some (Some k, gen').
Proof.
  intros T. unfold dropout_keep, Cell.bind, Cell.draw, Cell.ret. rewrite T.
  destruct (bernoulli _ _ gen) as [k gen']. now exists k, gen'.
Qed.

(** One epoch keeps the mode flag, and binds [pred] to the output of the
    pass it has just run with the parameters it started from. *)
Lemma epoch_inv (g : Data) (mask : list bool) (epo : nat) (s s' : Session)
      (gen gen' : Generator) :
  epoch g mask epo s gen = Some (s', gen') ->
  training (model s') = training (model s)
  /\ exists keep gen1,
       dropout_keep (model s) g gen = Some (keep, gen1)
       /\ pred s' = Some (forward_with keep (parameters (model s)) g).
Proof.
  unfold epoch, Cell.bind, Cell.lift, Cell.ret.
  destruct (dropout_keep (model s) g gen) as [[keep gen1]|]; [|discriminate].
  destruct (masked_loss _ mask (y g)) as [loss|]; [|discriminate].
  destruct (Adam_step _ _ _) as [th opt].
  intros [= <- <-]. simpl. split; [reflexivity|].
  now exists keep, gen1.
Qed.

(** A loop of [n + 1] iterations is a loop of [n] iterations followed by
    the last one. *)
Lemma epochs_from_last (g : Data) (mask : list bool) (n epo : nat) (s : Session) :
  forall gen,
    epochs_from g mask epo (S n) s gen
    = (s' <- epochs_from g mask epo n s ;; epoch g mask (epo + n) s') gen.
Proof.
  revert epo s. induction n as [|n IH]; intros epo s gen.
  - cbn [epochs_from]. unfold Cell.bind, Cell.ret. rewrite Nat.add_0_r.
    destruct (epoch g mask epo s gen) as [[s1 g1]|]; reflexivity.
  - change (epochs_from g mask epo (S (S n)) s gen)
      with ((s1 <- epoch g mask epo s ;; epochs_from g mask (S epo) (S n) s1) gen).
    unfold Cell.bind at 1.
    destruct (epoch g mask epo s gen) as [[s1 g1]|] eqn:E1.
    + rewrite IH. cbn [epochs_from]. unfold Cell.bind. rewrite E1.
      replace (S epo + n) with (epo + S n) by lia. reflexivity.
    + cbn [epochs_from]. unfold Cell.bind. now rewrite E1.
Qed.

Lemma epochs_from_training (g : Data) (mask : list bool) (n epo : nat)
      (s s' : Session) (gen gen' : Generator) :
  epochs_from g mask epo n s gen = Some (s', gen') ->
  training (model s') = training (model s).
Proof.
  revert epo s gen. induction n as [|n IH]; intros epo s gen.
  - intros [= <- <-]. reflexivity.
  - cbn [epochs_from]. unfold Cell.bind.
    destruct (epoch g mask epo s gen) as [[s1 g1]|] eqn:E1; [|discriminate].
    intros H. apply IH in H. rewrite H.
    now destruct (epoch_inv _ _ _ _ _ _ _ E1).
Qed.

(** C1, what the two cells compute.  After a training cell of [n + 1]
    epochs, the evaluation cell reports the loss, on the test mask, of
    [pred]: the output of the last pass of the training loop, which ran in
    training mode from the session [s0] that [n] epochs had produced, with
    the dropout mask [keep] drawn in that pass and with the parameters that
    the last optimizer step then replaced.  The evaluation-mode pass is run
    and bound to [test_pred], and does not enter the reported loss. *)
Theorem test_loss_is_of_training_pass (n : nat) (g : Data)
        (train_mask test_mask : list bool) (gen gen1 gen2 : Generator)
        (s : Session) (test_pred : Tensor1) (test_loss : scalar) :
  train (S n) g train_mask gen = Some (s, gen1) ->
  evaluate s g test_mask gen1 = Some ((test_pred, test_loss), gen2) ->
  exists (m : Model) (g0 : Generator) (s0 : Session) (g1 g2 : Generator)
         (keep : list (list bool)),
    Model_init (num_node_features g) gen = Some (m, g0)
    /\ epochs_from g train_mask 0 n (before_loop m) g0 = Some (s0, g1)
    /\ training (model s0) = true
    /\ dropout_keep (model s0) g g1 = Some (Some keep, g2)
    /\ pred s = Some (forward_with (Some keep) (parameters (model s0)) g)
    /\ masked_loss (forward_with (Some keep) (parameters (model s0)) g)
                   test_mask (y g) = Some test_loss
    /\ test_pred = forward_with None (parameters (model s)) g
    /\ gen2 = gen1.
Proof.
  unfold train. unfold Cell.bind at 1.
  destruct (Model_init (num_node_features g) gen) as [[m g0]|] eqn:Em;
    [|discriminate].
  rewrite epochs_from_last. unfold Cell.bind at 1.
  destruct (epochs_from g train_mask 0 n _ g0) as [[s0 g1]|] eqn:E0;
    [|discriminate].
  intros E1.
  pose proof (epochs_from_training _ _ _ _ _ _ _ _ E0) as T0. simpl in T0.
  destruct (epoch_inv _ _ _ _ _ _ _ E1) as (_ & keep & g2 & Ek & Ep).
  destruct (dropout_keep_training (model s0) g g1 T0) as (k & gk & Ek').
  rewrite Ek' in Ek. injection Ek as <- <-.
  unfold evaluate. rewrite Ep.
  unfold Cell.bind at 1. rewrite forward_eval.
  unfold Cell.bind, Cell.lift, Cell.ret.
  destruct (masked_loss _ test_mask (y g)) as [l|] eqn:El; [|discriminate].
  intros [= <- <- <-].
  exists m, g0, s0, g1, gk, k. repeat split; assumption.
Qed.

End Loop.

End GcnFacts.

Module GcnExamples.
Import Torch Notebook Gcn GcnFacts Toy.

Example tiny_train_runs :
  train (rnd := Lcg.lcg) 1 tiny tiny_train 40%Z = Some (tiny_session, 984196135%Z).
Proof. reflexivity. Qed.

(** The reported loss is that of the training pass (prediction 4 for the
    target 3, error 1), whereas the evaluation-mode pass with the final
    parameters predicts 3/2, error 9/4. *)
Example tiny_reported_loss :
  evaluate (rnd := Lcg.lcg) tiny_session tiny tiny_test 984196135%Z
  = Some (([3 # 2; 6 # 2; 9 # 2]%Q, Finite (5625 # 5625)), 984196135%Z)
  /\ evaluation_mode_loss tiny_session tiny tiny_test = Some (Finite (9 # 4))
  /\ ~ (5625 # 5625 == 9 # 4)%Q.
Proof.
  split; [reflexivity|].
  split; [reflexivity|].
  intros H. vm_compute in H. discriminate.
Qed.

(** Witness of the C1 theorem: the same run. *)
Lemma test_loss_is_of_training_pass_witness :
  train (rnd := Lcg.lcg) 1 tiny tiny_train 40%Z = Some (tiny_session, 984196135%Z)
  /\ evaluate (rnd := Lcg.lcg) tiny_session tiny tiny_test 984196135%Z
     = Some (([3 # 2; 6 # 2; 9 # 2]%Q, Finite (5625 # 5625)), 984196135%Z)
  /\ exists (m : @Model Lcg.lcg layers) (g0 : Z) (s0 : @Session Lcg.lcg layers)
            (g1 g2 : Z) (keep : list (list bool)),
       Model_init (rnd := Lcg.lcg) (num_node_features tiny) 40%Z = Some (m, g0)
       /\ epochs_from (rnd := Lcg.lcg) tiny tiny_train 0 0 (before_loop m) g0
          = Some (s0, g1)
       /\ training (model s0) = true
       /\ dropout_keep (rnd := Lcg.lcg) (model s0) tiny g1 = Some (Some keep, g2)
       /\ pred tiny_session
          = Some (forward_with (Some keep) (parameters (model s0)) tiny)
       /\ masked_loss (forward_with (Some keep) (parameters (model s0)) tiny)
                      tiny_test (y tiny) = Some (Finite (5625 # 5625))
       /\ [3 # 2; 6 # 2; 9 # 2]%Q
          = forward_with None (parameters (model tiny_session)) tiny
       /\ 984196135%Z = 984196135%Z.
Proof.
  split; [reflexivity|].
  split; [reflexivity|].
  apply (@test_loss_is_of_training_pass Lcg.lcg layers 0 tiny tiny_train
           tiny_test 40%Z 984196135%Z 984196135%Z tiny_session
           [3 # 2; 6 # 2; 9 # 2]%Q (Finite (5625 # 5625)));
    reflexivity.
Defined.

End GcnExamples.

Module ScaleFacts.
Import RStage.
Local Open Scope R_scope.

Lemma Rsum_div (s : R) (l : list R) :
  Rsum (map (fun u => u / s) l) = Rsum l / s.
Proof.
  induction l as [|a l IH]; simpl.
  - unfold Rdiv. ring.
  - rewrite IH. unfold Rdiv. ring.
Qed.

Lemma Rsum_shift (m : R) (l : list R) :
  Rsum (map (fun u => u - m) l) = Rsum l - INR (length l) * m.
Proof.
  induction l as [|a l IH].
  - simpl. ring.
  - cbn [map Rsum fold_right length]. fold (Rsum (map (fun u => u - m) l)).
    fold (Rsum l). rewrite IH, S_INR. ring.
Qed.

Lemma Rsum_sq_div (s : R) (l : list R) :
  Rsum (map (fun u => u * u) (map (fun u => u / s) l))
  = Rsum (map (fun u => u * u) l) * (/ s * / s).
Proof.
  induction l as [|a l IH]; simpl.
  - ring.
  - fold (Rsum (map (fun u => u * u) (map (fun u => u / s) l))).
    fold (Rsum (map (fun u => u * u) l)). rewrite IH. unfold Rdiv. ring.
Qed.

Lemma Rsum_sq_nonneg (l : list R) : 0 <= Rsum (map (fun u => u * u) l).
Proof.
  induction l as [|a l IH]; simpl.
  - lra.
  - fold (Rsum (map (fun u => u * u) l)). nra.
Qed.

(** The centred column sums to zero. *)
Lemma Rsum_centred (v : list R) :
  v <> [] -> Rsum (map (fun u => u - mean v) v) = 0.
Proof.
  intros Hv. rewrite Rsum_shift. unfold mean. field.
  destruct v; [congruence|]. apply not_0_INR. discriminate.
Qed.

(** A column with fewer than two entries has standard deviation zero. *)
Lemma sd_short (v : list R) : (length v < 2)%nat -> sd v = 0.
Proof.
  destruct v as [|a [|b l]]; simpl; intros H; try lia.
  - unfold sd. simpl. unfold Rdiv. rewrite Rmult_0_l. apply sqrt_0.
  - unfold sd, mean. simpl.
    replace (((a - (a + 0) / 1) * (a - (a + 0) / 1) + 0) / (1 - 1)) with 0.
    + apply sqrt_0.
    + unfold Rdiv. replace (a - (a + 0) * / 1) with 0 by (field). ring.
Qed.

Lemma rms_centred (v : list R) :
  (2 <= length v)%nat -> rms (map (fun u => u - mean v) v) = sd v.
Proof.
  intros H. unfold rms, sd. rewrite map_map, length_map.
  f_equal. f_equal.
  apply Rmax_right.
  apply le_INR in H. simpl in H. lra.
Qed.

(** C8.  For altitudes whose standard deviation is not zero, [scale]
    returns, entry by entry, the altitude minus the mean of the altitudes,
    divided by their standard deviation, and the scaled column has mean 0
    and standard deviation 1 (exactly, over the reals). *)
Theorem scale_standardizes (alt : list R) :
  sd alt <> 0 ->
  scale alt = map (fun u => (u - mean alt) / sd alt) alt
  /\ mean (scale alt) = 0
  /\ sd (scale alt) = 1.
Proof.
  intros Hsd.
  assert (Hn : (2 <= length alt)%nat).
  { destruct (le_lt_dec 2 (length alt)) as [H|H]; [exact H|].
    now apply sd_short in H. }
  assert (Hne : alt <> []) by (destruct alt; simpl in Hn; [lia|discriminate]).
  assert (Hscale : scale alt = map (fun u => (u - mean alt) / sd alt) alt).
  { unfold scale. rewrite (rms_centred alt Hn), map_map. reflexivity. }
  assert (Hmean : mean (scale alt) = 0).
  { unfold mean at 1. unfold scale. rewrite Rsum_div, (Rsum_centred alt Hne).
    unfold Rdiv. ring. }
  split; [exact Hscale|]. split; [exact Hmean|].
  unfold sd at 1. rewrite Hmean.
  assert (E : map (fun u => (u - 0) * (u - 0)) (scale alt)
              = map (fun u => u * u) (scale alt)).
  { apply map_ext. intros u. ring. }
  rewrite E. unfold scale at 1. rewrite Rsum_sq_div, (rms_centred alt Hn).
  assert (L : length (scale alt) = length alt).
  { unfold scale. now rewrite !length_map. }
  rewrite L.
  set (q := Rsum (map (fun u => u * u) (map (fun u => u - mean alt) alt))).
  assert (Hq : sd alt = sqrt (q / (INR (length alt) - 1))).
  { unfold sd, q. now rewrite map_map. }
  assert (Hden : 0 < INR (length alt) - 1).
  { apply le_INR in Hn. simpl in Hn. lra. }
  assert (Hq0 : 0 <= q / (INR (length alt) - 1)).
  { apply Rmult_le_pos; [apply Rsum_sq_nonneg|].
    left. now apply Rinv_0_lt_compat. }
  assert (Hss : sd alt * sd alt = q / (INR (length alt) - 1)).
  { rewrite Hq. now apply sqrt_sqrt. }
  replace (q * (/ sd alt * / sd alt) / (INR (length alt) - 1)) with 1.
  - apply sqrt_1.
  - transitivity ((q / (INR (length alt) - 1)) * (/ sd alt * / sd alt)).
    + rewrite <- Hss. field. exact Hsd.
    + unfold Rdiv. ring.
Qed.

(** Witness of C8: the altitudes 1 and 3 (mean 2, standard deviation
    [sqrt 2]). *)
Lemma scale_standardizes_witness :
  sd [1; 3] <> 0
  /\ scale [1; 3] = map (fun u => (u - mean [1; 3]) / sd [1; 3]) [1; 3]
  /\ mean (scale [1; 3]) = 0
  /\ sd (scale [1; 3]) = 1.
Proof.
  assert (H : sd [1; 3] <> 0).
  { unfold sd, mean. simpl.
    apply Rgt_not_eq, sqrt_lt_R0.
    replace ((1 + (3 + 0)) / (1 + 1)) with 2 by field.
    replace (((1 - 2) * (1 - 2) + ((3 - 2) * (3 - 2) + 0)) / (1 + 1 - 1))
      with 2 by field.
    lra. }
  split; [exact H|]. exact (scale_standardizes [1; 3] H).
Defined.

End ScaleFacts.

Module DistanceFacts.
Import RStage DistanceSpec.
Local Open Scope R_scope.
Local Open Scope string_scope.

Lemma atan_nonneg (t : R) : 0 <= t -> 0 <= atan t.
Proof.
  intros [H|<-].
  - left. rewrite <- atan_0. now apply atan_increasing.
  - rewrite atan_0. lra.
Qed.

Lemma atan2_nonneg (y x : R) : 0 <= y -> 0 <= x -> 0 <= atan2 y x.
Proof.
  intros Hy Hx. unfold atan2.
  destruct (Rlt_dec 0 x) as [H|H].
  - apply atan_nonneg. unfold Rdiv.
    apply Rmult_le_pos; [exact Hy|]. left. now apply Rinv_0_lt_compat.
  - destruct (Rlt_dec x 0); [lra|].
    pose proof PI_RGT_0.
    destruct (Rlt_dec 0 y); [lra|].
    destruct (Rlt_dec y 0); lra.
Qed.

Lemma haversine_nonneg (p1 p2 : R * R) : 0 <= haversine p1 p2.
Proof.
  unfold haversine.
  apply Rmult_le_pos; [|lra].
  apply Rmult_le_pos; [lra|].
  apply atan2_nonneg; apply sqrt_pos.
Qed.

(** A point is at distance zero from itself. *)
Lemma haversine_same (q : R * R) : haversine q q = 0.
Proof.
  unfold haversine.
  replace (snd q * (PI / 180) - snd q * (PI / 180)) with 0 by ring.
  replace (fst q * (PI / 180) - fst q * (PI / 180)) with 0 by ring.
  replace (0 / 2) with 0 by field.
  rewrite sin_0.
  replace (0 * 0 + cos (snd q * (PI / 180)) * cos (snd q * (PI / 180)) * (0 * 0))
    with 0 by ring.
  rewrite Rmin_left by lra.
  rewrite sqrt_0. replace (1 - 0) with 1 by ring. rewrite sqrt_1.
  unfold atan2. destruct (Rlt_dec 0 1); [|lra].
  replace (0 / 1) with 0 by field. rewrite atan_0. ring.
Qed.

Lemma haversine_sym (p q : R * R) : haversine p q = haversine q p.
Proof.
  unfold haversine.
  replace ((snd q * (PI / 180) - snd p * (PI / 180)) / 2)
    with (- ((snd p * (PI / 180) - snd q * (PI / 180)) / 2)) by field.
  replace ((fst q * (PI / 180) - fst p * (PI / 180)) / 2)
    with (- ((fst p * (PI / 180) - fst q * (PI / 180)) / 2)) by field.
  rewrite !sin_neg.
  set (u := sin ((snd p * (PI / 180) - snd q * (PI / 180)) / 2)).
  set (v := sin ((fst p * (PI / 180) - fst q * (PI / 180)) / 2)).
  replace (- u * - u + cos (snd p * (PI / 180)) * cos (snd q * (PI / 180)) * (- v * - v))
    with (u * u + cos (snd q * (PI / 180)) * cos (snd p * (PI / 180)) * (v * v))
    by ring.
  reflexivity.
Qed.

Lemma valid_point_example (lo la : R) :
  -360 <= lo <= 360 -> -90 <= la <= 90 -> valid_point (lo, la) = true.
Proof.
  intros H1 H2. unfold valid_point, Rleb. simpl.
  repeat match goal with
         | |- context [Rle_dec ?a ?b] => destruct (Rle_dec a b); [|exfalso; lra]
         end.
  reflexivity.
Qed.

Lemma valid_point_bounds (q : R * R) :
  valid_point q = true -> -360 <= fst q <= 360 /\ -90 <= snd q <= 90.
Proof.
  unfold valid_point, Rleb. intros H.
  destruct (Rle_dec (-360) (fst q)), (Rle_dec (fst q) 360),
    (Rle_dec (-90) (snd q)), (Rle_dec (snd q) 90); try discriminate. lra.
Qed.

Lemma atan_pos (t : R) : 0 < t -> 0 < atan t.
Proof. intros H. rewrite <- atan_0. now apply atan_increasing. Qed.

Lemma atan2_zero_iff (y x : R) : 0 <= y -> 0 <= x -> (atan2 y x = 0 <-> y = 0).
Proof.
  intros Hy Hx. unfold atan2. pose proof PI_RGT_0 as HPI.
  destruct (Rlt_dec 0 x) as [H|H].
  - split.
    + intros E. destruct Hy as [Hy|Hy]; [|now symmetry].
      assert (0 < y / x) by (apply Rdiv_lt_0_compat; assumption).
      pose proof (atan_pos _ H0). lra.
    + intros ->. unfold Rdiv. rewrite Rmult_0_l. apply atan_0.
  - destruct (Rlt_dec x 0); [lra|].
    destruct (Rlt_dec 0 y); [split; lra|].
    destruct (Rlt_dec y 0); [lra|]. split; lra.
Qed.

Lemma sin_zero_small (t : R) : - (PI / 2) <= t <= PI / 2 -> sin t = 0 -> t = 0.
Proof.
  intros Ht Hs. pose proof PI_RGT_0 as HPI.
  destruct (Rtotal_order t 0) as [H|[H|H]]; [|exact H|].
  - assert (0 < sin (- t)) by (apply sin_gt_0; lra).
    rewrite sin_neg in H0. lra.
  - assert (0 < sin t) by (apply sin_gt_0; lra). lra.
Qed.

Lemma cos_zero_quarter (t : R) :
  - (PI / 2) <= t <= PI / 2 -> (cos t = 0 <-> t = PI / 2 \/ t = - (PI / 2)).
Proof.
  intros Ht. split.
  - intros Hc.
    destruct (Req_dec t (PI / 2)) as [E|E]; [now left|].
    destruct (Req_dec t (- (PI / 2))) as [E'|E']; [now right|].
    assert (0 < cos t) by (apply cos_gt_0; lra). lra.
  - intros [->| ->]; [apply cos_PI2|rewrite cos_neg; apply cos_PI2].
Qed.

(** Two valid points are at distance zero exactly when they are one place
    on the sphere. *)
Lemma haversine_zero_iff (p1 p2 : R * R) :
  valid_point p1 = true -> valid_point p2 = true ->
  (haversine p1 p2 = 0 <-> same_place p1 p2).
Proof.
  intros V1 V2.
  apply valid_point_bounds in V1, V2.
  destruct p1 as [lo1 la1], p2 as [lo2 la2]. simpl in V1, V2.
  pose proof PI_RGT_0 as HPI.
  unfold haversine, same_place. cbn [fst snd].
  set (s1 := sin ((la2 * (PI / 180) - la1 * (PI / 180)) / 2)).
  set (s2 := sin ((lo2 * (PI / 180) - lo1 * (PI / 180)) / 2)).
  set (c1 := cos (la1 * (PI / 180))). set (c2 := cos (la2 * (PI / 180))).
  assert (Q : forall la, -90 <= la <= 90 ->
                - (PI / 2) <= la * (PI / 180) <= PI / 2).
  { intros la Hla.
    pose proof (Rmult_le_pos (la + 90) PI ltac:(lra) ltac:(lra)).
    pose proof (Rmult_le_pos (90 - la) PI ltac:(lra) ltac:(lra)).
    lra. }
  pose proof (Q la1 (proj2 V1)) as R1. pose proof (Q la2 (proj2 V2)) as R2.
  assert (Hc1 : 0 <= c1) by (apply cos_ge_0; lra).
  assert (Hc2 : 0 <= c2) by (apply cos_ge_0; lra).
  set (a0 := s1 * s1 + c1 * c2 * (s2 * s2)).
  assert (P1 : 0 <= s1 * s1) by apply Rle_0_sqr.
  assert (P2 : 0 <= c1 * c2 * (s2 * s2)).
  { apply Rmult_le_pos; [now apply Rmult_le_pos|apply Rle_0_sqr]. }
  assert (Ha0 : 0 <= a0) by (unfold a0; lra).
  assert (Hmin : 0 <= Rmin a0 1 <= 1).
  { split; [apply Rmin_glb; lra|apply Rmin_r]. }
  assert (Step1 : 2 * atan2 (sqrt (Rmin a0 1)) (sqrt (1 - Rmin a0 1)) * 6378137 = 0
                  <-> a0 = 0).
  { split.
    - intros E.
      assert (E' : atan2 (sqrt (Rmin a0 1)) (sqrt (1 - Rmin a0 1)) = 0) by lra.
      apply atan2_zero_iff in E'; try apply sqrt_pos.
      apply sqrt_eq_0 in E'; [|lra].
      unfold Rmin in E'. destruct (Rle_dec a0 1); lra.
    - intros E. rewrite E, Rmin_left by lra.
      rewrite sqrt_0. 
      assert (atan2 0 (sqrt (1 - 0)) = 0) by (apply atan2_zero_iff; [lra|apply sqrt_pos|reflexivity]).
      lra. }
  rewrite Step1. clear Step1.
  assert (Step2 : a0 = 0 <-> s1 = 0 /\ (c1 = 0 \/ c2 = 0 \/ s2 = 0)).
  { unfold a0. split.
    - intros E.
      assert (Z1 : s1 * s1 = 0) by lra.
      assert (Z2 : c1 * c2 * (s2 * s2) = 0) by lra.
      split; [apply Rmult_integral in Z1; tauto|].
      apply Rmult_integral in Z2. destruct Z2 as [Z2|Z2].
      + apply Rmult_integral in Z2. tauto.
      + right. right. apply Rmult_integral in Z2. tauto.
    - intros [-> [-> | [-> | ->]]]; ring. }
  rewrite Step2. clear Step2.
  split.
  - intros [Hs1 Hrest].
    assert (El : la1 = la2).
    { apply sin_zero_small in Hs1; [nra|]. nra. }
    split; [exact El|].
    destruct Hrest as [H|[H|H]].
    + apply cos_zero_quarter in H; [|exact R1].
      destruct H; [left|right; left]; nra.
    + apply cos_zero_quarter in H; [|exact R2].
      rewrite El. destruct H; [left|right; left]; nra.
    + right. right. apply sin_eq_0_0 in H. destruct H as (k & Hk).
      exists k. nra.
  - intros [El Hrest]. subst la2. split.
    + unfold s1. replace ((la1 * (PI / 180) - la1 * (PI / 180)) / 2) with 0 by field.
      apply sin_0.
    + destruct Hrest as [H|[H|(k & Hk)]].
      * left. apply cos_zero_quarter; [exact R1|]. left. rewrite H. field.
      * left. apply cos_zero_quarter; [exact R1|]. right. rewrite H. field.
      * right. right. apply sin_eq_0_1. exists k.
        replace ((lo2 * (PI / 180) - lo1 * (PI / 180)) / 2)
          with ((lo2 - lo1) * (PI / 360)) by field.
        rewrite Hk. field.
Qed.

(** The extraction inside [get_geo_distance] has no [NA] entry: every
    element of the list is a single distance. *)
Lemma no_NA_among_distances (ds : list R) :
  ds <> [] -> list_extract (map (fun d => [d]) ds) 1 = Some (map Some ds).
Proof.
  intros Hds. unfold list_extract. cbn [Z.eqb Z.ltb Z.compare].
  destruct ds as [|d ds]; [congruence|].
  cbn [map]. rewrite map_map. reflexivity.
Qed.

Lemma all_some_Some {A} (l : list A) : all_some (map Some l) = Some l.
Proof. induction l as [|a l IH]; simpl; [reflexivity|now rewrite IH]. Qed.

(** On four scalars the helper returns one distance, in kilometres. *)
Lemma get_geo_distance_scalar (long1 lat1 long2 lat2 : R) :
  valid_point (long1, lat1) = true -> valid_point (long2, lat2) = true ->
  get_geo_distance [long1] [lat1] [long2] [lat2] "km"
  = Some [haversine (long1, lat1) (long2, lat2) / 1000].
Proof.
  intros V1 V2. unfold get_geo_distance. cbn [map2 length Nat.eqb combine map fst snd].
  unfold distHaversine. rewrite V1, V2. reflexivity.
Qed.

(** A point that fails the check makes the helper stop. *)
Lemma get_geo_distance_invalid (long1 lat1 long2 lat2 : R) :
  valid_point (long1, lat1) && valid_point (long2, lat2) = false ->
  get_geo_distance [long1] [lat1] [long2] [lat2] "km" = None.
Proof.
  intros V. unfold get_geo_distance. cbn [map2 length Nat.eqb combine map fst snd].
  unfold distHaversine. rewrite V. reflexivity.
Qed.

Lemma colon_up (n : nat) : (1 <= n)%nat -> colon 1 n = seq 1 n.
Proof.
  intros H. unfold colon.
  destruct (Nat.leb_spec 1 n); [|lia].
  f_equal. lia.
Qed.

(** On an empty table the outer loop runs over [1:0], that is 1 then 0. *)
Lemma colon_down : colon 1 0 = [1; 0]%nat.
Proof. reflexivity. Qed.

(** A counting loop that keeps an invariant indexed by the loop variable. *)
Lemma for_each_seq {S} (P : nat -> S -> Prop) (body : nat -> S -> option S)
      (len start : nat) (s : S) :
  (forall i t, (start <= i < start + len)%nat -> P i t ->
               exists t', body i t = Some t' /\ P (Datatypes.S i) t') ->
  P start s ->
  exists s', for_each (seq start len) body s = Some s' /\ P (start + len)%nat s'.
Proof.
  revert start s. induction len as [|len IH]; intros start s Hstep H0.
  - exists s. rewrite Nat.add_0_r. split; [reflexivity|exact H0].
  - destruct (Hstep start s) as (t & Et & Pt); [lia|exact H0|].
    cbn [seq for_each]. rewrite Et.
    destruct (IH (Datatypes.S start) t) as (s' & Es & Ps).
    + intros i u Hi. apply Hstep. lia.
    + exact Pt.
    + exists s'. split; [exact Es|].
      replace (start + Datatypes.S len)%nat with (Datatypes.S start + len)%nat by lia.
      exact Ps.
Qed.

Lemma assign_inside (M : matrix) (i j : nat) (v : R) :
  (1 <= i <= nrow M)%nat -> (1 <= j <= ncol M)%nat ->
  assign M i j v
  = Some {| nrow := nrow M; ncol := ncol M;
            cell := fun a b => if ((a =? i) && (b =? j))%nat then v else cell M a b |}.
Proof.
  intros Hi Hj. unfold assign, inside.
  destruct (Nat.leb_spec 1 i), (Nat.leb_spec i (nrow M)),
    (Nat.leb_spec 1 j), (Nat.leb_spec j (ncol M)); try lia.
  reflexivity.
Qed.

Lemma read_inside (M : matrix) (i j : nat) :
  (1 <= i <= nrow M)%nat -> (1 <= j <= ncol M)%nat ->
  read M i j = Some (cell M i j).
Proof.
  intros Hi Hj. unfold read, inside.
  destruct (Nat.leb_spec 1 i), (Nat.leb_spec i (nrow M)),
    (Nat.leb_spec 1 j), (Nat.leb_spec j (ncol M)); try lia.
  reflexivity.
Qed.

Section Entries.
Variables LONG LAT : list R.

Lemma at1_inside (v : list R) (i : nat) :
  (1 <= i <= length v)%nat -> exists u, at1 v i = Some u.
Proof.
  intros H. destruct i as [|k]; [lia|]. simpl.
  destruct (nth_error v k) as [u|] eqn:E; [now exists u|].
  apply nth_error_None in E. lia.
Qed.

Lemma entry_sym (a b : nat) : entry LONG LAT a b = entry LONG LAT b a.
Proof.
  unfold entry.
  destruct (Nat.eqb_spec a b), (Nat.eqb_spec b a), (Nat.ltb_spec b a),
    (Nat.ltb_spec a b); try lia; reflexivity.
Qed.

Lemma entry_diag (a : nat) : entry LONG LAT a a = 0.
Proof. unfold entry. now rewrite Nat.eqb_refl. Qed.

Lemma km_nonneg (i j : nat) : 0 <= km LONG LAT i j.
Proof.
  unfold km.
  destruct (at1 LONG i), (at1 LAT i), (at1 LONG j), (at1 LAT j); try lra.
  pose proof (haversine_nonneg (r, r0) (r1, r2)). lra.
Qed.

Lemma entry_nonneg (a b : nat) : 0 <= entry LONG LAT a b.
Proof.
  unfold entry. destruct (a =? b)%nat; [lra|].
  destruct (b <? a)%nat; apply km_nonneg.
Qed.

End Entries.

Section Fill.
Variables LONG LAT : list R.
Variable n : nat.
Hypothesis HLONG : length LONG = n.
Hypothesis HLAT : length LAT = n.
Hypothesis Hvalid :
  forall i lo la, at1 LONG i = Some lo -> at1 LAT i = Some la ->
                  valid_point (lo, la) = true.

Lemma fill_cell_step (ii j : nat) (M : matrix) :
  (1 <= j <= ii)%nat -> (ii <= n)%nat -> filled LONG LAT n ii j M ->
  exists M', fill_cell LONG LAT ii j M = Some M' /\ filled LONG LAT n ii (S j) M'.
Proof.
  intros Hj Hii (Hr & Hc & Hold & Hrow).
  unfold fill_cell.
  destruct (Nat.eqb_spec ii j) as [->|Hne].
  - rewrite assign_inside by lia.
    eexists. split; [reflexivity|].
    split; [exact Hr|]. split; [exact Hc|]. cbn [cell]. split.
    + intros a b Ha Hb.
      destruct (Nat.eqb_spec a j); [lia|]. simpl. now apply Hold.
    + intros b Hb.
      destruct (Nat.eqb_spec b j) as [->|Hbj].
      * rewrite Nat.eqb_refl. simpl. now rewrite entry_diag.
      * rewrite Nat.eqb_refl. simpl.
        destruct (Nat.eqb_spec j j); [|lia]. simpl.
        apply Hrow. lia.
  - destruct (at1_inside LONG ii) as (lo1 & E1); [lia|].
    destruct (at1_inside LAT ii) as (la1 & E2); [lia|].
    destruct (at1_inside LONG j) as (lo2 & E3); [lia|].
    destruct (at1_inside LAT j) as (la2 & E4); [lia|].
    rewrite E1, E2, E3, E4.
    rewrite get_geo_distance_scalar by (eapply Hvalid; eassumption).
    set (d := haversine (lo1, la1) (lo2, la2) / 1000).
    assert (Hd : d = km LONG LAT ii j) by (unfold km; now rewrite E1, E2, E3, E4).
    rewrite assign_inside by lia.
    rewrite read_inside by (cbn [nrow ncol]; lia).
    rewrite assign_inside by (cbn [nrow ncol]; lia).
    eexists. split; [reflexivity|].
    cbn [nrow ncol cell]. rewrite !Nat.eqb_refl. cbn [andb].
    split; [exact Hr|]. split; [exact Hc|]. split.
    + intros a b Ha Hb. simpl.
      destruct (Nat.eqb_spec b ii); [lia|].
      destruct (Nat.eqb_spec a ii); [lia|].
      rewrite andb_false_r. cbn [andb]. now apply Hold.
    + intros b Hb.
      assert (Ed : entry LONG LAT ii j = d).
      { unfold entry. destruct (Nat.eqb_spec ii j); [lia|].
        destruct (Nat.ltb_spec j ii); [now rewrite Hd|lia]. }
      simpl. rewrite !Nat.eqb_refl.
      destruct (Nat.eqb_spec ii j); [lia|].
      destruct (Nat.eqb_spec b ii); [lia|].
      destruct (Nat.eqb_spec b j) as [->|Hbj]; cbn [andb].
      * rewrite (entry_sym LONG LAT j ii), Ed. now split.
      * apply Hrow. lia.
Qed.

Lemma inner_loop (ii : nat) (M : matrix) :
  (1 <= ii <= n)%nat -> filled LONG LAT n ii 1 M ->
  exists M',
    for_each (colon 1 ii) (fun jj => fill_cell LONG LAT ii jj) M = Some M'
    /\ filled LONG LAT n (S ii) 1 M'.
Proof.
  intros Hii H0. rewrite colon_up by lia.
  destruct (for_each_seq (filled LONG LAT n ii)
              (fun jj => fill_cell LONG LAT ii jj) ii 1 M) as (M' & E & F).
  - intros j T Hj HT. apply fill_cell_step; [lia|lia|exact HT].
  - exact H0.
  - exists M'. split; [exact E|].
    destruct F as (Hr & Hc & Hold & Hrow).
    split; [exact Hr|]. split; [exact Hc|]. split.
    + intros a b Ha Hb.
      destruct (Nat.eq_dec a ii) as [->|Na].
      * apply Hrow. lia.
      * destruct (Nat.eq_dec b ii) as [->|Nb].
        -- apply Hrow. lia.
        -- apply Hold; lia.
    + intros b Hb. lia.
Qed.

Lemma outer_loop :
  (1 <= n)%nat ->
  exists M,
    for_each (colon 1 n)
             (fun ii => for_each (colon 1 ii) (fun jj => fill_cell LONG LAT ii jj))
             (new_matrix n n (-1)) = Some M
    /\ filled LONG LAT n (S n) 1 M.
Proof.
  intros Hn. rewrite colon_up by exact Hn.
  destruct (for_each_seq (fun i => filled LONG LAT n i 1)
              (fun ii => for_each (colon 1 ii) (fun jj => fill_cell LONG LAT ii jj))
              n 1 (new_matrix n n (-1))) as (M & E & F).
  - intros i T Hi HT. apply inner_loop; [lia|exact HT].
  - repeat split; intros; lia.
  - exists M. split; [exact E|exact F].
Qed.

End Fill.

(** What the distance chunk builds from a non-empty table of rows with
    valid coordinates: an [n x n] matrix whose cell [(i, j)] is
    [entry i j]. *)
Lemma distances_entries (p : list Row) :
  p <> [] -> Forall valid_row p ->
  exists M,
    distances p = Some M
    /\ nrow M = length p /\ ncol M = length p
    /\ forall i j, (1 <= i <= length p)%nat -> (1 <= j <= length p)%nat ->
         cell M i j
         = entry (map (fun r => LONG (loc r)) p) (map (fun r => LAT (loc r)) p) i j.
Proof.
  intros Hp Hv. unfold distances.
  destruct (outer_loop (map (fun r => LONG (loc r)) p)
                       (map (fun r => LAT (loc r)) p) (length p))
    as (M & E & Hr & Hc & Hold & _).
  - apply length_map.
  - apply length_map.
  - intros i lo la Hlo Hla. destruct i as [|i]; [discriminate|].
    simpl in Hlo, Hla. rewrite nth_error_map in Hlo, Hla.
    destruct (nth_error p i) as [r|] eqn:Er; [|discriminate].
    simpl in Hlo, Hla. injection Hlo as <-. injection Hla as <-.
    rewrite Forall_forall in Hv. apply Hv. eapply nth_error_In, Er.
  - destruct p; [congruence|simpl; lia].
  - exists M. split; [exact E|]. split; [exact Hr|]. split; [exact Hc|].
    intros i j Hi Hj. apply Hold; lia.
Qed.

Lemma km_rows (p : list Row) (i j : nat) (ri rj : Row) :
  nth_error p (i - 1) = Some ri -> nth_error p (j - 1) = Some rj ->
  (1 <= i)%nat -> (1 <= j)%nat ->
  km (map (fun r => LONG (loc r)) p) (map (fun r => LAT (loc r)) p) i j
  = km_between ri rj.
Proof.
  intros Ei Ej Hi Hj. unfold km, km_between.
  destruct i as [|i]; [lia|]. destruct j as [|j]; [lia|].
  simpl in Ei, Ej. rewrite Nat.sub_0_r in Ei, Ej.
  simpl. rewrite !nth_error_map, Ei, Ej. reflexivity.
Qed.

(** The cells off the diagonal of a completed matrix. *)
Lemma distances_cells (p : list Row) :
  p <> [] -> Forall valid_row p ->
  exists M,
    distances p = Some M
    /\ forall i j ri rj,
         nth_error p (i - 1) = Some ri -> nth_error p (j - 1) = Some rj ->
         (1 <= i)%nat -> (1 <= j)%nat -> i <> j ->
         cell M i j = km_between ri rj.
Proof.
  intros Hne Hv.
  destruct (distances_entries p Hne Hv) as (M & E & _ & _ & Hcell).
  exists M. split; [exact E|].
  intros i j ri rj Ei Ej Hi Hj Hij.
  assert (Li : (i - 1 < length p)%nat) by (apply nth_error_Some; congruence).
  assert (Lj : (j - 1 < length p)%nat) by (apply nth_error_Some; congruence).
  rewrite Hcell by lia. unfold entry.
  destruct (Nat.eqb_spec i j); [contradiction|].
  destruct (Nat.ltb_spec j i).
  - apply km_rows; assumption.
  - rewrite (km_rows p j i rj ri) by assumption.
    unfold km_between. now rewrite haversine_sym.
Qed.

(** On an empty table the chunk stops with "subscript out of bounds". *)
Lemma distances_empty : distances [] = None.
Proof. reflexivity. Qed.

End DistanceFacts.

Module DistanceClaims.
Import RStage DistanceSpec DistanceFacts Inputs.
Local Open Scope R_scope.
Local Open Scope string_scope.

Lemma station_valid (name : String.string) : valid_row (station name).
Proof.
  unfold valid_row, valid_point, Rleb. simpl.
  repeat match goal with
         | |- context [Rle_dec ?a ?b] => destruct (Rle_dec a b); [|exfalso; lra]
         end.
  reflexivity.
Qed.


(** With such a station in the table the chunk stops. *)
Example distances_stop_on_invalid_point :
  distances [station "PARADISE"; misplaced] = None.
Proof.
  unfold distances. simpl.
  unfold fill_cell at 1. cbn [Nat.eqb at1 nth_error].
  rewrite get_geo_distance_invalid; [reflexivity|].
  apply andb_false_intro1.
  unfold valid_point, Rleb. simpl.
  destruct (Rle_dec 100 90); [exfalso; lra|].
  now rewrite !andb_false_r.
Qed.

Lemma far_station_valid : valid_row far_station.
Proof. apply valid_point_example; simpl; lra. Qed.

Lemma three_stations_valid : Forall valid_row three_stations.
Proof.
  repeat constructor;
    [apply station_valid|apply far_station_valid|apply station_valid].
Qed.



(** In that table the far station is at a distance greater than zero from
    the first one, and the two stations at one place are at distance zero. *)
Example distances_of_three_stations :
  exists M,
    distances three_stations = Some M
    /\ 0 < cell M 2 1 /\ 0 < cell M 1 2 /\ cell M 3 1 = 0.
Proof.
  destruct (distances_entries three_stations) as (M & E & _ & _ & Hcell);
    [discriminate|exact three_stations_valid|].
  destruct (distances_cells three_stations) as (M' & E' & Hoff);
    [discriminate|exact three_stations_valid|].
  rewrite E in E'. injection E' as <-.
  exists M. split; [exact E|].
  assert (F : 0 < km_between far_station (station "PARADISE")).
  { pose proof (haversine_nonneg
                  (LONG (loc far_station), LAT (loc far_station))
                  (LONG (loc (station "PARADISE")),
                   LAT (loc (station "PARADISE")))) as [H|H].
    - unfold km_between. lra.
    - exfalso. symmetry in H.
      apply (haversine_zero_iff _ _ far_station_valid
               (station_valid "PARADISE")) in H.
      destruct H as [H _]. simpl in H. lra. }
  split; [|split].
  - rewrite (Hoff 2%nat 1%nat far_station (station "PARADISE"));
      [exact F|reflexivity|reflexivity|lia|lia|lia].
  - rewrite (Hoff 1%nat 2%nat (station "PARADISE") far_station);
      [|reflexivity|reflexivity|lia|lia|lia].
    unfold km_between in *. now rewrite haversine_sym.
  - rewrite Hcell by (simpl; lia).
    unfold entry, km. simpl. rewrite haversine_same. field.
Qed.


End DistanceClaims.

Module NngFacts.
Import Nng.



Lemma filter_all {A} (f : A -> bool) (l : list A) :
  (forall a, In a l -> f a = true) -> filter f l = l.
Proof.
  induction l as [|a l IH]; simpl; intros H; [reflexivity|].
  rewrite (H a) by now left.
  f_equal. apply IH. intros b Hb. apply H. now right.
Qed.



Lemma normalize_eq (a b i j : nat) :
  normalize (a, b) = normalize (i, j) <-> (a, b) = (i, j) \/ (a, b) = (j, i).
Proof.
  unfold normalize. simpl. split.
  - intros [= H1 H2].
    destruct (Nat.le_ge_cases a b), (Nat.le_ge_cases i j);
      [left|right|right|left]; f_equal; lia.
  - intros [[= -> ->]|[= -> ->]]; [reflexivity|].
    f_equal; lia.
Qed.

(** The undirected graph joins [i] and [j] exactly when the directed one
    has an edge between them, in either direction. *)
Lemma adjacent_as_undirected (E : list (nat * nat)) (i j : nat) :
  adjacent (as_undirected E) i j <-> In (i, j) E \/ In (j, i) E.
Proof.
  unfold adjacent, as_undirected. rewrite nodup_In, in_map_iff. split.
  - intros ([a b] & Hn & Hin). apply normalize_eq in Hn.
    destruct Hn as [[= -> ->]|[= -> ->]]; [now left|now right].
  - intros [H|H].
    + now exists (i, j).
    + exists (j, i). split; [|exact H]. apply normalize_eq. now right.
Qed.

Section Order.
Context {D : Type} (leb : D -> D -> bool).
Hypothesis leb_total : forall a b, leb a b = true \/ leb b a = true.
Hypothesis leb_trans :
  forall a b c, leb a b = true -> leb b c = true -> leb a c = true.

Lemma insert_perm (key : nat -> D) (i : nat) (l : list nat) :
  Permutation (insert leb key i l) (i :: l).
Proof.
  induction l as [|j l IH]; simpl; [apply Permutation_refl|].
  destruct (leb (key i) (key j)); [apply Permutation_refl|].
  eapply perm_trans; [apply perm_skip, IH|apply perm_swap].
Qed.

Lemma order_by_perm (key : nat -> D) (l : list nat) :
  Permutation (order_by leb key l) l.
Proof.
  induction l as [|i l IH]; simpl; [constructor|].
  eapply perm_trans; [apply insert_perm|]. now constructor.
Qed.





(** When vertex [i] heads the order of its own row, as vertex 1 does in
    the check of the R file, the selection is positions 2 to [k + 1] of
    that order. *)
Lemma selected_closest_idx (dx : nat -> nat -> D) (n k i : nat) (rest : list nat) :
  order_row leb dx n i = i :: rest ->
  selected leb dx n k i = closest_idx leb dx n k i.
Proof.
  intros E. unfold selected, closest_idx. rewrite E. simpl.
  rewrite Nat.eqb_refl. simpl. f_equal.
  apply filter_all. intros j Hj.
  destruct (Nat.eqb_spec j i) as [->|]; [|reflexivity].
  exfalso.
  assert (ND : NoDup (order_row leb dx n i)).
  { apply (Permutation_NoDup (Permutation_sym (order_by_perm (dx i) (seq 1 n)))).
    apply seq_NoDup. }
  rewrite E in ND. inversion ND. contradiction.
Qed.

Lemma order_row_first (dx : nat -> nat -> D) (n : nat) :
  1 <= n -> (forall j, leb (dx 1 1) (dx 1 j) = true) ->
  exists rest, order_row leb dx n 1 = 1 :: rest.
Proof.
  intros Hn Hmin. unfold order_row.
  destruct n as [|n]; [lia|]. cbn [seq order_by fold_right].
  destruct (fold_right (insert leb (dx 1)) [] (seq 2 n)) as [|j l].
  - now exists [].
  - simpl. rewrite Hmin. now exists (j :: l).
Qed.

Lemma in_nng (dx : nat -> nat -> D) (n k a b : nat) :
  In (a, b) (nng leb dx n k) <-> 1 <= a <= n /\ In b (selected leb dx n k a).
Proof.
  unfold nng. rewrite in_flat_map. split.
  - intros (i & Hi & Hab). apply in_map_iff in Hab.
    destruct Hab as (j & [= -> ->] & Hj). apply in_seq in Hi.
    split; [lia|exact Hj].
  - intros [Ha Hb]. exists a. split; [apply in_seq; lia|].
    apply in_map_iff. now exists b.
Qed.

End Order.

End NngFacts.

Module NngClaims.
Import Nng NngFacts.





End NngClaims.

Module Reproducibility.
Import Torch Notebook Gcn Pipeline RStage RPipeline.

(** One-based row selection by in-range indices. *)
Lemma rows_map {A} (d : A) (p : list A) (idx : list nat) :
  Forall (fun i => 1 <= i <= length p) idx ->
  rows p idx = Some (map (fun i => nth (i - 1) p d) idx).
Proof.
  induction 1 as [|i rest Hi _ IH]; simpl; [reflexivity|].
  destruct i as [|i]; [lia|]. rewrite IH.
  destruct (nth_error p i) as [a|] eqn:E.
  - replace (S i - 1) with i by lia.
    now rewrite (nth_error_nth p i d E).
  - apply nth_error_None in E. lia.
Qed.

(** The shuffle returns the rows of the table in a new order, whatever the
    generator was before [set.seed]. *)
Lemma shuffle_permutes {rr : RRandom} {A} (p : list A) (s : Seed) :
  exists q, fst (shuffle p s) = Some q /\ Permutation q p.
Proof.
  unfold shuffle.
  pose proof (sample_spec (length p) (set_seed 42)) as P.
  destruct (sample (length p) (set_seed 42)) as [idx s']. simpl in *.
  destruct p as [|d p'] eqn:Ep.
  - simpl in P. apply Permutation_sym, Permutation_nil in P. subst idx.
    exists []. split; [reflexivity|constructor].
  - rewrite <- Ep in *.
    exists (map (fun i => nth (i - 1) p d) idx). split.
    + apply rows_map. apply Forall_forall. intros i Hi.
      apply (Permutation_in _ P), in_seq in Hi. lia.
    + eapply perm_trans; [apply Permutation_map, P|].
      rewrite <- seq_shift, map_map.
      assert (E : map (fun i => nth (S i - 1) p d) (seq 0 (length p)) = p).
      { rewrite <- (TorchFacts.map_nth_seq d p) at 2.
        apply map_ext. intros i. simpl. now rewrite Nat.sub_0_r. }
      rewrite E. apply Permutation_refl.
Qed.

(** C7.  Both files overwrite their generator with the seed 42 before the
    first random draw.  So whatever state the generators are in when a run
    starts, the R file produces the same vertex order, distance matrix and
    graph from the same table (and the order is a permutation of the
    table), and the notebook produces the same report (train and test
    masks, test loss, baseline loss) from the same graph. *)
Theorem same_seed_same_run (rr : RRandom) (rnd : Random) (layers : Layers) :
  (forall (p : list Location) (s s' : Seed),
      preprocess p s = preprocess p s')
  /\ (forall (A : Type) (p : list A) (s s' : Seed),
      shuffle p s = shuffle p s'
      /\ exists q, fst (shuffle p s) = Some q /\ Permutation q p)
  /\ (forall (n_epochs : nat) (d : Data) (g g' : Generator),
      notebook n_epochs d g = notebook n_epochs d g').
Proof.
  split; [reflexivity|].
  split.
  - intros A p s s'. split; [reflexivity|apply shuffle_permutes].
  - reflexivity.
Qed.

End Reproducibility.

(** ** The R file returns on every valid, non-empty table *)

Module RPipelineFacts.
Import RStage Nng NngFacts DistanceSpec DistanceFacts RPipeline Reproducibility.

Lemma Rleb_total (a b : R) : Rleb a b = true \/ Rleb b a = true.
Proof.
  unfold Rleb. destruct (Rle_dec a b); [now left|].
  destruct (Rle_dec b a); [now right|]. exfalso. lra.
Qed.

Lemma Rleb_trans (a b c : R) :
  Rleb a b = true -> Rleb b c = true -> Rleb a c = true.
Proof.
  unfold Rleb.
  destruct (Rle_dec a b), (Rle_dec b c), (Rle_dec a c);
    try discriminate; try reflexivity.
  exfalso. lra.
Qed.

Lemma length_scale (v : list R) : length (scale v) = length v.
Proof. unfold scale. now rewrite !length_map. Qed.

Lemma length_add_columns (p : list Location) :
  length (add_columns p) = length p.
Proof.
  unfold add_columns.
  rewrite length_map, length_combine, length_scale, length_map.
  apply Nat.min_id.
Qed.

Lemma loc_add_columns (p : list Location) (r : Row) :
  In r (add_columns p) -> In (loc r) p.
Proof.
  unfold add_columns. intros H. apply in_map_iff in H.
  destruct H as ([l s] & <- & Hin). simpl.
  now apply in_combine_l in Hin.
Qed.

(** From a non-empty table whose coordinates pass the check of geosphere,
    whatever the generator state, the R file produces its three outputs:
    the rows in shuffled order, their distance matrix, and a graph in which
    two vertices are joined exactly when one selected the other. *)
Lemma preprocess_returns {rr : RRandom} (p : list Location) (s : Seed) :
  p <> [] ->
  Forall (fun l => valid_point (LONG l, LAT l) = true) p ->
  exists out,
    fst (preprocess p s) = Some out
    /\ Permutation (table out) (add_columns p)
    /\ distances (table out) = Some (dist out)
    /\ forall i j,
         adjacent (g out) i j <->
         (1 <= i <= length p
          /\ In j (selected Rleb (cell (dist out)) (length p) 5 i))
         \/ (1 <= j <= length p
             /\ In i (selected Rleb (cell (dist out)) (length p) 5 j)).
Proof.
  intros Hp Hv. unfold preprocess.
  destruct (shuffle_permutes (add_columns p) s) as (q & Eq & Pq).
  destruct (shuffle (add_columns p) s) as [shuffled s'] eqn:Es.
  simpl in Eq. subst shuffled.
  assert (Lq : length q = length p).
  { rewrite (Permutation_length Pq). apply length_add_columns. }
  assert (Hq : q <> []).
  { intros ->. destruct p; [congruence|discriminate]. }
  assert (Vq : Forall valid_row q).
  { apply Forall_forall. intros r Hr.
    apply (Permutation_in _ Pq), loc_add_columns in Hr.
    rewrite Forall_forall in Hv. exact (Hv _ Hr). }
  destruct (distances_entries q Hq Vq) as (M & EM & _ & _ & _).
  rewrite EM. eexists. split; [reflexivity|]. cbn [table dist g].
  split; [exact Pq|]. split; [exact EM|].
  intros i j. unfold graph.
  rewrite adjacent_as_undirected, !in_nng, Lq. reflexivity.
Qed.

End RPipelineFacts.

(** ** More about the partition and the masked selections *)

Module PartitionExtras.
Import Torch TorchFacts Notebook PartitionFacts Gcn.

Lemma py_int_fifth (n : nat) :
  py_int (train_fraction * inject_Z (Z.of_nat n)) = (Z.of_nat n / 5)%Z.
Proof.
  unfold py_int, train_fraction.
  change (Qnum ((2 # 10) * inject_Z (Z.of_nat n))) with (2 * Z.of_nat n)%Z.
  change (Z.pos (Qden ((2 # 10) * inject_Z (Z.of_nat n)))) with (2 * 5)%Z.
  rewrite Z.quot_div_nonneg by lia.
  apply Z.div_mul_cancel_l; lia.
Qed.

(** The entries a mask keeps. *)
Lemma masked_select_same_length {A} (v : list A) (m : list bool) :
  length v = length m ->
  masked_select v m = Some (map fst (filter snd (combine v m))).
Proof. intros L. unfold masked_select. now rewrite L, Nat.eqb_refl. Qed.

Lemma kept_and_dropped {A} (v : list A) (m : list bool) :
  length v = length m ->
  Permutation (map fst (filter snd (combine v m))
               ++ map fst (filter snd (combine v (bitwise_not m)))) v
  /\ length (map fst (filter snd (combine v m))) = count_true m.
Proof.
  revert m. induction v as [|a v IH]; intros [|b m] L; simpl in L; try lia.
  - split; [constructor|reflexivity].
  - destruct (IH m) as [P C]; [lia|].
    unfold bitwise_not, count_true in *. simpl.
    destruct b; simpl.
    + split; [now constructor|now f_equal].
    + split; [|exact C].
      apply Permutation_sym, Permutation_cons_app, Permutation_sym, P.
Qed.

Section Claims.
Context {rnd : Random}.

(** X1.  On a graph of [n] vertices, [n] below [2^50] (where the float
    product [0.2 * n] truncates as the exact one), the call of the notebook
    returns, whatever the generator, a train mask with [n / 5] entries set
    (integer division) and a test mask with the other [n - n / 5]; so the
    train partition is empty exactly when the graph has fewer than five
    vertices, and the test partition is never empty on a graph with a
    vertex. *)
Theorem notebook_split_is_a_fifth (d : Data) (g : Generator) :
  (Z.of_nat (num_nodes d) < 2 ^ 50)%Z ->
  exists train test g',
    notebook_masks d g = Some ((train, test), g')
    /\ count_true train = num_nodes d / 5
    /\ count_true test = num_nodes d - num_nodes d / 5
    /\ (count_true train = 0 <-> num_nodes d < 5)
    /\ (1 <= num_nodes d -> 1 <= count_true test).
Proof.
  intros Hsmall. unfold notebook_masks.
  set (n := num_nodes d) in *.
  assert (B5 : (0 <= Z.of_nat n / 5 <= Z.of_nat n)%Z).
  { split; [apply Z.div_pos; lia|]. apply Z.div_le_upper_bound; lia. }
  destruct (make_train_test_masks_returns (Z.of_nat n)
              (train_fraction * inject_Z (Z.of_nat n)) (Z.of_nat n / 5)%Z g)
    as (train & E & P);
    [lia|rewrite py_int_fifth; apply int64_scalar_fits; lia|].
  rewrite Nat2Z.id in *.
  pose proof (count_perm_mask _ _ _ P) as C.
  pose proof (length_perm_mask _ _ _ P) as L.
  pose proof (count_true_not train) as N.
  assert (Q5 : Z.to_nat (Z.min (Z.of_nat n) (Z.max 0 (Z.of_nat n / 5))) = n / 5).
  { rewrite <- (Nat2Z.id (n / 5)). f_equal. rewrite Nat2Z.inj_div.
    change (Z.of_nat 5) with 5%Z. lia. }
  rewrite Q5 in C.
  assert (D5 : n / 5 <= n) by (apply Nat.Div0.div_le_upper_bound; lia).
  exists train, (bitwise_not train), (snd (randperm n g)).
  split; [exact E|]. split; [exact C|]. split; [lia|]. split.
  - rewrite C. split.
    + intros H0. apply Nat.div_small_iff in H0; lia.
    + intros H5. apply Nat.div_small. exact H5.
  - intros H1.
    assert (n / 5 < n) by (apply Nat.div_lt; lia). lia.
Qed.

(** X2.  For as many vertices as there are targets and a train size that
    the comparison takes (its truncation lies in [-2^63, 2^64)), the two
    masks that [make_train_test_masks] returns split the targets: selecting
    by the train mask and by the test mask both succeed, every target lands
    in exactly one of the two selections, and the selections have as many
    entries as their masks have entries set. *)
Theorem masks_split_the_targets (yv : list Q) (t : Q) (g : Generator) :
  (- 2 ^ 63 <= py_int t < 2 ^ 64)%Z ->
  exists train test g' a b,
    make_train_test_masks (Z.of_nat (length yv)) t g = Some ((train, test), g')
    /\ masked_select yv train = Some a
    /\ masked_select yv test = Some b
    /\ Permutation (a ++ b) yv
    /\ length a = count_true train
    /\ length b = count_true test.
Proof.
  intros Ht.
  assert (Hs : exists s, int64_scalar (py_int t) = Some s).
  { destruct (Z.lt_ge_cases (py_int t) (2 ^ 63)).
    - eexists. apply int64_scalar_fits. lia.
    - eexists. apply int64_scalar_wraps. lia. }
  destruct Hs as (s & Hs).
  destruct (make_train_test_masks_returns (Z.of_nat (length yv)) t s g)
    as (train & E & P); [lia|exact Hs|].
  rewrite Nat2Z.id in *.
  pose proof (length_perm_mask _ _ _ P) as L.
  assert (L' : length yv = length (bitwise_not train)).
  { unfold bitwise_not. now rewrite length_map. }
  destruct (kept_and_dropped yv train (eq_sym L)) as [Pm Ca].
  destruct (kept_and_dropped yv (bitwise_not train) L') as [_ Cb].
  do 5 eexists.
  split; [exact E|].
  split; [apply masked_select_same_length; now symmetry|].
  split; [apply masked_select_same_length; exact L'|].
  split; [exact Pm|]. split; [exact Ca|exact Cb].
Qed.

End Claims.

(** Witness of X1: the 456 isolated vertices. *)
Lemma notebook_split_is_a_fifth_witness :
  (Z.of_nat (num_nodes Inputs.d456) < 2 ^ 50)%Z
  /\ exists train test g',
    notebook_masks (rnd := Lcg.lcg) Inputs.d456 42%Z = Some ((train, test), g')
    /\ count_true train = num_nodes Inputs.d456 / 5
    /\ count_true test = num_nodes Inputs.d456 - num_nodes Inputs.d456 / 5
    /\ (count_true train = 0 <-> num_nodes Inputs.d456 < 5)
    /\ (1 <= num_nodes Inputs.d456 -> 1 <= count_true test).
Proof.
  assert (H : (Z.of_nat (num_nodes Inputs.d456) < 2 ^ 50)%Z) by reflexivity.
  split; [exact H|].
  apply (@notebook_split_is_a_fifth Lcg.lcg Inputs.d456 42%Z H).
Defined.

(** Witness of X2: three targets and a train size of 1.5. *)
Lemma masks_split_the_targets_witness :
  (- 2 ^ 63 <= py_int (3 # 2) < 2 ^ 64)%Z
  /\ exists train test g' a b,
    make_train_test_masks (rnd := Lcg.lcg)
      (Z.of_nat (length [10; 20; 30]%Q)) (3 # 2) 42%Z
    = Some ((train, test), g')
    /\ masked_select [10; 20; 30]%Q train = Some a
    /\ masked_select [10; 20; 30]%Q test = Some b
    /\ Permutation (a ++ b) [10; 20; 30]%Q
    /\ length a = count_true train
    /\ length b = count_true test.
Proof.
  assert (H : (- 2 ^ 63 <= py_int (3 # 2) < 2 ^ 64)%Z)
    by (change (py_int (3 # 2)) with 1%Z; lia).
  split; [exact H|].
  apply (@masks_split_the_targets Lcg.lcg [10; 20; 30]%Q (3 # 2) 42%Z H).
Defined.

End PartitionExtras.

(** ** More about the training and evaluation cells *)

Module TrainingExtras.
Import Torch Notebook Gcn GcnFacts Further.

(** Among [0 .. n-1] the multiples of 500 number [n / 500], rounded up. *)
Lemma printing_epochs_count (n : nat) : printing_epochs 0 n = (n + 499) / 500.
Proof.
  unfold printing_epochs.
  induction n as [|n IH]; [reflexivity|].
  rewrite seq_S, filter_app, length_app, IH. cbn [Nat.add filter].
  pose proof (Nat.div_mod_eq n 500) as Hn.
  assert (Hr : n mod 500 < 500) by (apply Nat.mod_upper_bound; lia).
  set (q := n / 500) in *. set (r := n mod 500) in *.
  assert (Hq : S (n + 499) / 500 = q + 1).
  { symmetry. apply (Nat.div_unique _ 500 _ r); lia. }
  rewrite Hq.
  destruct (Nat.eqb_spec r 0) as [E|E]; cbn [length].
  - assert ((n + 499) / 500 = q).
    { symmetry. apply (Nat.div_unique _ 500 _ 499); lia. }
    lia.
  - assert ((n + 499) / 500 = q + 1).
    { symmetry. apply (Nat.div_unique _ 500 _ (r - 1)); lia. }
    lia.
Qed.

Section Loop.
Context {rnd : Random} {layers : Layers}.

Lemma epoch_printed (g : Data) (mask : list bool) (epo : nat) (s s' : Session)
      (gen gen' : Generator) :
  epoch g mask epo s gen = Some (s', gen') ->
  length (printed s')
  = length (printed s) + (if epo mod 500 =? 0 then 1 else 0).
Proof.
  unfold epoch, Cell.bind, Cell.lift, Cell.ret.
  set (b := epo mod 500 =? 0).
  destruct (dropout_keep (model s) g gen) as [[keep gen1]|]; [|discriminate].
  destruct (masked_loss _ mask (y g)) as [loss|]; [|discriminate].
  destruct (Adam_step _ _ _) as [th opt].
  intros E. injection E as <- <-. cbn [printed].
  destruct b; rewrite ?length_app; cbn [length]; lia.
Qed.

Lemma epochs_from_printed (g : Data) (mask : list bool) (n epo : nat)
      (s s' : Session) (gen gen' : Generator) :
  epochs_from g mask epo n s gen = Some (s', gen') ->
  length (printed s') = length (printed s) + printing_epochs epo n.
Proof.
  revert epo s gen. induction n as [|n IH]; intros epo s gen.
  - intros [= <- <-]. unfold printing_epochs. simpl. lia.
  - cbn [epochs_from]. unfold Cell.bind.
    destruct (epoch g mask epo s gen) as [[s1 g1]|] eqn:E1; [|discriminate].
    intros H. apply IH in H. apply epoch_printed in E1.
    unfold printing_epochs in *. cbn [seq filter].
    set (b := epo mod 500 =? 0) in *.
    destruct b; cbn [length]; lia.
Qed.

(** One epoch reads the targets only where the train mask selects them. *)
Lemma epoch_ignores_unselected (g : Data) (y' : Tensor1) (mask : list bool)
      (epo : nat) (s : Session) :
  masked_select y' mask = masked_select (y g) mask ->
  epoch (with_y g y') mask epo s = epoch g mask epo s.
Proof.
  intros H. unfold epoch.
  assert (L : forall out, masked_loss out mask (y (with_y g y'))
                          = masked_loss out mask (y g)).
  { intros out. unfold masked_loss. simpl. now rewrite H. }
  assert (F : (fun keep th => masked_loss (forward_with keep th (with_y g y'))
                                mask (y (with_y g y')))
              = (fun keep th => masked_loss (forward_with keep th g) mask (y g))).
  { apply functional_extensionality. intros keep.
    apply functional_extensionality. intros th. apply L. }
  change (dropout_keep (model s) (with_y g y')) with (dropout_keep (model s) g).
  f_equal. apply functional_extensionality. intros keep.
  change (forward_with keep (parameters (model s)) (with_y g y'))
    with (forward_with keep (parameters (model s)) g).
  rewrite L. f_equal. apply functional_extensionality. intros loss.
  change (fun th => masked_loss (forward_with keep th (with_y g y')) mask
                      (y (with_y g y')))
    with ((fun keep th => masked_loss (forward_with keep th (with_y g y')) mask
                            (y (with_y g y'))) keep).
  rewrite F. reflexivity.
Qed.

Lemma epochs_from_ignore_unselected (g : Data) (y' : Tensor1) (mask : list bool)
      (n epo : nat) (s : Session) :
  masked_select y' mask = masked_select (y g) mask ->
  epochs_from (with_y g y') mask epo n s = epochs_from g mask epo n s.
Proof.
  intros H. revert epo s. induction n as [|n IH]; intros epo s; [reflexivity|].
  cbn [epochs_from]. rewrite (epoch_ignores_unselected g y' mask epo s H).
  f_equal. apply functional_extensionality. intros s1. apply IH.
Qed.

(** X3.  Training never looks at a target outside the train mask: if the
    targets of a graph are replaced by others that agree with them on the
    vertices the train mask selects, the training cell leaves the same
    session (parameters, optimizer state, [pred], printed losses) and the
    same generator, whatever the number of epochs. *)
Theorem training_ignores_test_targets (n : nat) (g : Data) (y' : Tensor1)
        (train_mask : list bool) (gen : Generator) :
  masked_select y' train_mask = masked_select (y g) train_mask ->
  train n (with_y g y') train_mask gen = train n g train_mask gen.
Proof.
  intros H. unfold train.
  change (num_node_features (with_y g y')) with (num_node_features g).
  unfold Cell.bind.
  destruct (Model_init (num_node_features g) gen) as [[m g0]|]; [|reflexivity].
  now rewrite (epochs_from_ignore_unselected g y' train_mask n 0 (before_loop m) H).
Qed.

(** X4.  A training cell that completes [n] epochs has printed one loss for
    each epoch number divisible by 500, that is [n / 500] rounded up: ten
    lines for the 5000 epochs of the notebook. *)
Theorem training_prints_every_500 (n : nat) (g : Data) (train_mask : list bool)
        (gen gen' : Generator) (s : Session) :
  train n g train_mask gen = Some (s, gen') ->
  length (printed s) = (n + 499) / 500
  /\ (n = 5000 -> length (printed s) = 10).
Proof.
  unfold train, Cell.bind.
  destruct (Model_init (num_node_features g) gen) as [[m g0]|]; [|discriminate].
  intros H. apply epochs_from_printed in H. simpl in H.
  rewrite printing_epochs_count in H.
  split; [exact H|]. intros ->. rewrite H. reflexivity.
Qed.

(** X5.  With no epoch at all the training cell still returns, but it binds
    no [pred], and the evaluation cell, which reads [pred], raises. *)
Theorem no_epoch_no_pred (g : Data) (train_mask test_mask : list bool)
        (gen : Generator) :
  exists s gen',
    train 0 g train_mask gen = Some (s, gen')
    /\ pred s = None
    /\ evaluate s g test_mask gen' = None.
Proof.
  unfold train, Cell.bind, Model_init, Cell.bind, Cell.draw, Cell.ret.
  destruct (GCNConv_init (num_node_features g) 16 gen) as [c1 g1].
  destruct (GCNConv_init 16 1 g1) as [c2 g2].
  cbn [epochs_from]. unfold Cell.ret.
  eexists. eexists. split; [reflexivity|]. split; [reflexivity|].
  unfold evaluate. unfold Cell.bind at 1. rewrite forward_eval.
  reflexivity.
Qed.

End Loop.

(** Witness of X3: the target of the held-out vertex of the three-vertex
    graph is changed from 3 to 99. *)
Lemma training_ignores_test_targets_witness :
  masked_select [99; 6; 9]%Q Toy.tiny_train
  = masked_select (y Toy.tiny) Toy.tiny_train
  /\ train (rnd := Lcg.lcg) (layers := Toy.layers) 1
           (with_y Toy.tiny [99; 6; 9]%Q) Toy.tiny_train 40%Z
     = train (rnd := Lcg.lcg) (layers := Toy.layers) 1 Toy.tiny Toy.tiny_train 40%Z.
Proof.
  split; [reflexivity|].
  apply (@training_ignores_test_targets Lcg.lcg Toy.layers 1 Toy.tiny
           [99; 6; 9]%Q Toy.tiny_train 40%Z).
  reflexivity.
Defined.

(** Witness of X4: one epoch on the three-vertex graph prints one loss. *)
Lemma training_prints_every_500_witness :
  train (rnd := Lcg.lcg) (layers := Toy.layers) 1 Toy.tiny Toy.tiny_train 40%Z
  = Some (Toy.tiny_session, 984196135%Z)
  /\ length (printed Toy.tiny_session) = (1 + 499) / 500
  /\ (1 = 5000 -> length (printed Toy.tiny_session) = 10).
Proof.
  split; [reflexivity|].
  apply (@training_prints_every_500 Lcg.lcg Toy.layers 1 Toy.tiny Toy.tiny_train
           40%Z 984196135%Z Toy.tiny_session).
  reflexivity.
Defined.

End TrainingExtras.

(** ** When the degree cell raises *)

Module DegreeExtras.
Import Notebook Features FeaturesFacts.

(** The cell goes through on a non-empty source row within the graph. *)
Lemma add_degree_runs (g : Data) :
  fst (edge_index g) <> [] ->
  Forall (fun i => i < num_nodes g) (fst (edge_index g)) ->
  exists g', add_degree g = Some g'.
Proof.
  intros Hne Hin.
  set (idx := fst (edge_index g)) in *.
  set (cnt := count_occ Nat.eq_dec idx).
  set (md := list_max (map cnt (seq 0 (S (list_max idx))))).
  assert (Hoh : one_hot (map cnt (seq 0 (num_nodes g))) (md + 1)
                = Some (map (one_hot_row (md + 1)) (map cnt (seq 0 (num_nodes g))))).
  { unfold one_hot. rewrite forallb_ltb; [reflexivity|].
    apply Forall_forall. intros d Hd. apply in_map_iff in Hd.
    destruct Hd as (v & <- & _).
    pose proof (count_le_max idx v). fold cnt in H. fold md in H. lia. }
  unfold add_degree. fold idx. rewrite (degree_inferred idx Hne). cbn [obind].
  replace (tensor_max (map (count_occ Nat.eq_dec idx) (seq 0 (S (list_max idx)))))
    with (Some md) by reflexivity.
  cbn [obind]. unfold OneHotDegree. fold idx. rewrite (degree_given idx _ Hin).
  cbn [obind]. fold cnt. rewrite Hoh. cbn [obind]. unfold cat_last.
  rewrite !length_map, length_seq. unfold num_nodes. rewrite Nat.eqb_refl.
  eexists. reflexivity.
Qed.

Lemma forallb_ltb_false (l : list nat) (N : nat) :
  Exists (fun i => N <= i) l -> forallb (fun i => i <? N) l = false.
Proof.
  induction 1 as [i l H|i l _ IH]; simpl.
  - destruct (Nat.ltb_spec i N); [lia|reflexivity].
  - rewrite IH. apply andb_false_r.
Qed.

(** X6.  The degree cell raises in exactly two cases: the graph has no edge
    ([torch.max] of an empty tensor), or some source index is not a vertex
    of the graph (the degree count inside [OneHotDegree] is given
    [num_nodes] and scatters past it); in every other case it returns the
    graph with its new features. *)
Theorem add_degree_raises_iff (g : Data) :
  add_degree g = None
  <-> fst (edge_index g) = []
      \/ Exists (fun i => num_nodes g <= i) (fst (edge_index g)).
Proof.
  split.
  - intros H.
    destruct (fst (edge_index g)) as [|i l] eqn:E; [now left|].
    right.
    destruct (Forall_Exists_dec (fun j => j < num_nodes g)
                (fun j => lt_dec j (num_nodes g)) (i :: l)) as [F|X].
    + exfalso. destruct (add_degree_runs g) as (g' & Hg').
      * rewrite E. discriminate.
      * now rewrite E.
      * congruence.
    + apply Exists_exists in X. destruct X as (j & Hj & Hn).
      apply Exists_exists. exists j. split; [exact Hj|lia].
  - intros [H|H]; unfold add_degree.
    + rewrite H. reflexivity.
    + assert (Hne : fst (edge_index g) <> []) by (intros E; rewrite E in H; inversion H).
      rewrite (degree_inferred _ Hne). cbn [obind].
      replace (tensor_max (map (count_occ Nat.eq_dec (fst (edge_index g)))
                         (seq 0 (S (list_max (fst (edge_index g)))))))
        with (Some (list_max (map (count_occ Nat.eq_dec (fst (edge_index g)))
                         (seq 0 (S (list_max (fst (edge_index g))))))))
        by reflexivity.
      cbn [obind]. unfold OneHotDegree, degree. cbn [maybe_num_nodes].
      now rewrite (forallb_ltb_false _ _ H).
Qed.

End DegreeExtras.

(** ** More about the two helpers copied into the R file *)

Module HelperExtras.
Import RStage DistanceFacts Further.
Local Open Scope R_scope.

(** Counting [k] from the end of an element is counting [k] from the
    start of the reversed element. *)
Lemma entry_from_end (k : positive) (c : list R) :
  (if (Z.of_nat (length c) + Z.neg k + 1 <=? 0)%Z then None
   else nth_error c (Z.to_nat (Z.of_nat (length c) + Z.neg k + 1) - 1))
  = nth_error (rev c) (Z.to_nat (Z.pos k) - 1).
Proof.
  rewrite nth_error_rev.
  destruct (Z.leb_spec (Z.of_nat (length c) + Z.neg k + 1) 0) as [H|H].
  - destruct (Nat.ltb_spec (Z.to_nat (Z.pos k) - 1) (length c)); [lia|reflexivity].
  - destruct (Nat.ltb_spec (Z.to_nat (Z.pos k) - 1) (length c)); [|lia].
    f_equal. lia.
Qed.

(** The entry [list_extract] takes from one element, for a position that is
    not 0: [NA] exactly when the element is shorter than the position asks
    for, and an entry of the element otherwise. *)
Lemma entry_at_position (position : Z) (c : list R) :
  position <> 0%Z ->
  let u := if (position <? 0)%Z
           then (if (Z.of_nat (length c) + position + 1 <=? 0)%Z then None
                 else nth_error c (Z.to_nat (Z.of_nat (length c) + position + 1) - 1))
           else nth_error c (Z.to_nat position - 1) in
  (u = None <-> (length c < Z.abs_nat position)%nat)
  /\ forall v, u = Some v -> In v c.
Proof.
  intros Hp u. subst u.
  destruct (Z.ltb_spec position 0) as [Hneg|Hpos].
  - destruct (Z.leb_spec (Z.of_nat (length c) + position + 1) 0) as [H|H].
    + split; [|discriminate]. split; [lia|reflexivity].
    + split; [|intros v; apply nth_error_In].
      rewrite nth_error_None. lia.
  - split; [|intros v; apply nth_error_In].
    rewrite nth_error_None. lia.
Qed.

(** X7.  A negative position counts from the end of each element:
    extracting position [-k] is extracting position [k] from the reversed
    elements, with [NA] at the same places. *)
Theorem list_extract_from_end (k : positive) (column : list (list R)) :
  list_extract column (Z.neg k)
  = list_extract (map (@rev R) column) (Z.pos k).
Proof.
  unfold list_extract. cbn [Z.eqb Z.ltb Z.compare].
  destruct column as [|c column]; [reflexivity|].
  transitivity (Some (map (fun c0 => nth_error c0 (Z.to_nat (Z.pos k) - 1))
                          (map (@rev R) (c :: column)))); [|reflexivity].
  f_equal. rewrite map_map.
  apply map_ext. intros c'. apply entry_from_end.
Qed.

(** X8.  [list_extract] stops exactly on position 0 and on an empty
    column.  When it returns, the result has one entry for each element of
    the column: [NA] exactly for the elements that are shorter than the
    position asks for, and for the others an entry taken from that
    element. *)
Theorem list_extract_entries (column : list (list R)) (position : Z) :
  (list_extract column position = None <-> position = 0%Z \/ column = [])
  /\ forall out,
       list_extract column position = Some out ->
       Forall2 (fun c u => (u = None <-> (length c < Z.abs_nat position)%nat)
                           /\ forall v, u = Some v -> In v c)
               column out.
Proof.
  unfold list_extract.
  destruct (Z.eqb_spec position 0) as [->|Hp].
  { split; [split; [now left|reflexivity]|discriminate]. }
  destruct column as [|c column].
  { split; [split; [now right|reflexivity]|discriminate]. }
  split.
  - split.
    + destruct (position <? 0)%Z; discriminate.
    + intros [H|H]; [contradiction|discriminate].
  - intros out Hout.
    assert (E : out = map (fun c =>
                if (position <? 0)%Z
                then (if (Z.of_nat (length c) + position + 1 <=? 0)%Z then None
                      else nth_error c
                             (Z.to_nat (Z.of_nat (length c) + position + 1) - 1))
                else nth_error c (Z.to_nat position - 1)) (c :: column)).
    { destruct (position <? 0)%Z; now injection Hout as <-. }
    rewrite E. clear E Hout.
    induction (c :: column) as [|c' l IH]; cbn [map]; constructor.
    + exact (entry_at_position position c' Hp).
    + exact IH.
Qed.

(** An element without a third entry gives [NA] at its place, from the
    start as well as from the end; the call does not stop. *)
Example list_extract_short_element :
  list_extract [[1; 2; 3]; [4; 5]] 3 = Some [Some 3; None]
  /\ list_extract [[1; 2; 3]; [4; 5]] (-3) = Some [Some 1; None]
  /\ list_extract [[1; 2; 3]; [4; 5]] 2 = Some [Some 2; Some 5].
Proof. repeat split. Qed.

Local Open Scope string_scope.

Lemma map2_same_length {A B C} (f : A -> B -> C) (a : list A) (b : list B) :
  length a = length b ->
  map2 f a b = Some (map (fun ab => f (fst ab) (snd ab)) (combine a b)).
Proof. intros L. unfold map2. now rewrite L, Nat.eqb_refl. Qed.

Lemma all_some_map {A B} (f : A -> option B) (h : A -> B) (l : list A) :
  Forall (fun a => f a = Some (h a)) l ->
  all_some (map f l) = Some (map h l).
Proof.
  induction 1 as [|a l Ha _ IH]; simpl; [reflexivity|].
  now rewrite Ha, IH.
Qed.

Lemma map_combine_swap {A B} (f : A -> A -> B) (l1 l2 : list A) :
  (forall a b, f a b = f b a) ->
  map (fun ab => f (fst ab) (snd ab)) (combine l1 l2)
  = map (fun ab => f (fst ab) (snd ab)) (combine l2 l1).
Proof.
  intros Hf. revert l2. induction l1 as [|a l1 IH]; intros [|b l2];
    simpl; try reflexivity.
  now rewrite Hf, IH.
Qed.

(** The helper on vectors of one length whose points all pass the check:
    one distance per pair, converted to the unit asked for. *)
Lemma get_geo_distance_formula (units : String.string) :
  exists f : R -> R,
    (forall d, 0 <= d -> 0 <= f d)
    /\ forall long1 lat1 long2 lat2 : list R,
         long1 <> [] ->
         length lat1 = length long1 ->
         length long2 = length long1 ->
         length lat2 = length long1 ->
         Forall (fun q => valid_point q = true) (combine long1 lat1) ->
         Forall (fun q => valid_point q = true) (combine long2 lat2) ->
         get_geo_distance long1 lat1 long2 lat2 units
         = Some (map f (map (fun pq => haversine (fst pq) (snd pq))
                            (combine (combine long1 lat1) (combine long2 lat2)))).
Proof.
  exists (fun d => if String.eqb units "km" then d / 1000
                   else if String.eqb units "miles" then d / 1609.344 else d).
  split.
  - intros d Hd. destruct (String.eqb units "km"); [lra|].
    destruct (String.eqb units "miles"); lra.
  - intros long1 lat1 long2 lat2 Hne L1 L2 L3 V1 V2.
    unfold get_geo_distance.
    rewrite (map2_same_length _ long1 lat1) by congruence.
    rewrite (map2_same_length _ long2 lat2) by congruence.
    set (P1 := combine long1 lat1) in *. set (P2 := combine long2 lat2) in *.
    assert (E1 : map (fun ab : R * R => (fst ab, snd ab)) P1 = P1).
    { rewrite <- (map_id P1) at 2. apply map_ext. now intros []. }
    assert (E2 : map (fun ab : R * R => (fst ab, snd ab)) P2 = P2).
    { rewrite <- (map_id P2) at 2. apply map_ext. now intros []. }
    rewrite E1, E2.
    assert (LP : length P1 = length P2).
    { unfold P1, P2. rewrite !length_combine. lia. }
    rewrite (map2_same_length _ P1 P2 LP).
    rewrite (all_some_map _ (fun pq => haversine (fst pq) (snd pq))).
    + set (ds := map (fun pq => haversine (fst pq) (snd pq)) (combine P1 P2)).
      assert (Hds : ds <> []).
      { unfold ds, P1, P2. destruct long1, lat1, long2, lat2;
          simpl in *; try congruence; discriminate. }
      rewrite (no_NA_among_distances ds Hds), all_some_Some.
      destruct (String.eqb units "km"); [reflexivity|].
      destruct (String.eqb units "miles"); [reflexivity|].
      now rewrite map_id.
    + apply Forall_forall. intros [p q] Hpq. simpl.
      unfold distHaversine.
      rewrite Forall_forall in V1, V2.
      rewrite (V1 p (in_combine_l _ _ _ _ Hpq)), (V2 q (in_combine_r _ _ _ _ Hpq)).
      reflexivity.
Qed.

(** X9.  On four vectors of one positive length whose points are valid,
    [get_geo_distance] returns one distance for each pair of points, none of
    them negative, and it returns the same distances when the two points of
    every pair change places, whatever the unit. *)
Theorem get_geo_distance_symmetric (long1 lat1 long2 lat2 : list R)
        (units : String.string) :
  long1 <> [] ->
  length lat1 = length long1 ->
  length long2 = length long1 ->
  length lat2 = length long1 ->
  Forall (fun q => valid_point q = true) (combine long1 lat1) ->
  Forall (fun q => valid_point q = true) (combine long2 lat2) ->
  exists out,
    get_geo_distance long1 lat1 long2 lat2 units = Some out
    /\ get_geo_distance long2 lat2 long1 lat1 units = Some out
    /\ length out = length long1
    /\ Forall (fun d => 0 <= d) out.
Proof.
  intros Hne L1 L2 L3 V1 V2.
  destruct (get_geo_distance_formula units) as (f & Hf & F).
  eexists. split; [apply F; assumption|]. split.
  - rewrite F; try assumption; try congruence.
    + f_equal. f_equal. apply map_combine_swap, haversine_sym.
    + destruct long1, long2; simpl in *; congruence.
  - split.
    + rewrite !length_map, !length_combine. lia.
    + apply Forall_forall. intros d Hd.
      apply in_map_iff in Hd. destruct Hd as (h & <- & Hh).
      apply Hf. apply in_map_iff in Hh. destruct Hh as (pq & <- & _).
      apply haversine_nonneg.
Qed.

(** Witness of X9: from Paradise to Long Beach, in kilometres. *)
Lemma get_geo_distance_symmetric_witness :
  exists out,
    get_geo_distance [-121.62] [39.75] [-118.2] [33.8] "km" = Some out
    /\ get_geo_distance [-118.2] [33.8] [-121.62] [39.75] "km" = Some out
    /\ length out = 1%nat
    /\ Forall (fun d => 0 <= d) out.
Proof.
  apply (get_geo_distance_symmetric [-121.62] [39.75] [-118.2] [33.8] "km");
    try reflexivity; try discriminate;
    repeat constructor; apply valid_point_example; lra.
Defined.

End HelperExtras.

(** ** More about the distance matrix and the R file as a whole *)

Module DistanceExtras.
Import RStage DistanceSpec DistanceFacts RPipeline Reproducibility
       RPipelineFacts Further HelperExtras MoreInputs.
Local Open Scope R_scope.
Local Open Scope string_scope.

(** A loop that completes has run its body, successfully, at every value. *)
Lemma for_each_reaches {S} (body : nat -> S -> option S) (l : list nat)
      (s s' : S) (i : nat) :
  for_each l body s = Some s' -> In i l ->
  exists t t', body i t = Some t'.
Proof.
  revert s. induction l as [|a l IH]; intros s H Hin; [contradiction|].
  cbn [for_each] in H.
  destruct (body a s) as [s1|] eqn:E; [|discriminate].
  destruct Hin as [->|Hin]; [now exists s, s1|].
  now apply (IH s1).
Qed.

(** A cell off the diagonal is filled only if both points pass the check. *)
Lemma fill_cell_checks (LONG LAT : list R) (ii jj : nat) (M M' : matrix)
      (lo1 la1 lo2 la2 : R) :
  fill_cell LONG LAT ii jj M = Some M' -> ii <> jj ->
  at1 LONG ii = Some lo1 -> at1 LAT ii = Some la1 ->
  at1 LONG jj = Some lo2 -> at1 LAT jj = Some la2 ->
  valid_point (lo1, la1) = true /\ valid_point (lo2, la2) = true.
Proof.
  intros H Hne E1 E2 E3 E4. unfold fill_cell in H.
  destruct (Nat.eqb_spec ii jj); [contradiction|].
  rewrite E1, E2, E3, E4 in H.
  destruct (valid_point (lo1, la1) && valid_point (lo2, la2)) eqn:V.
  - now apply andb_true_iff in V.
  - rewrite (get_geo_distance_invalid _ _ _ _ V) in H. discriminate.
Qed.

Lemma at1_map_row (f : Row -> R) (p : list Row) (k : nat) (r : Row) :
  nth_error p k = Some r -> at1 (map f p) (S k) = Some (f r).
Proof. intros H. simpl. now rewrite nth_error_map, H. Qed.

(** If the chunk completes on two rows or more, every row passed the
    check. *)
Lemma distances_checked_all (p : list Row) (M : matrix) :
  distances p = Some M -> (2 <= length p)%nat -> Forall valid_row p.
Proof.
  intros H Hn. apply Forall_forall. intros r Hr.
  apply In_nth_error in Hr. destruct Hr as (k & Ek).
  assert (Hk : (k < length p)%nat) by (apply nth_error_Some; congruence).
  set (j := if (k =? 0)%nat then 1%nat else 0%nat).
  assert (Hj : (j < length p)%nat /\ j <> k).
  { unfold j. destruct (Nat.eqb_spec k 0); lia. }
  destruct (nth_error p j) as [r'|] eqn:Ej;
    [|apply nth_error_None in Ej; lia].
  unfold distances in H. rewrite colon_up in H by lia.
  set (hi := Nat.max k j). set (lo := Nat.min k j).
  destruct (for_each_reaches _ _ _ _ (S hi) H) as (t & t' & Ht).
  { apply in_seq. unfold hi. lia. }
  rewrite colon_up in Ht by lia.
  destruct (for_each_reaches _ _ _ _ (S lo) Ht) as (u & u' & Hu).
  { apply in_seq. unfold hi, lo. lia. }
  destruct (Nat.le_gt_cases k j) as [Hkj|Hkj].
  - assert (hi = j) by (unfold hi; lia). assert (lo = k) by (unfold lo; lia).
    subst hi lo. rewrite H0, H1 in Hu.
    destruct (fill_cell_checks _ _ _ _ _ _
                (LONG (loc r')) (LAT (loc r')) (LONG (loc r)) (LAT (loc r)) Hu)
      as [_ V]; [lia| | | | |exact V].
    + exact (at1_map_row (fun r => LONG (loc r)) p j r' Ej).
    + exact (at1_map_row (fun r => LAT (loc r)) p j r' Ej).
    + exact (at1_map_row (fun r => LONG (loc r)) p k r Ek).
    + exact (at1_map_row (fun r => LAT (loc r)) p k r Ek).
  - assert (hi = k) by (unfold hi; lia). assert (lo = j) by (unfold lo; lia).
    subst hi lo. rewrite H0, H1 in Hu.
    destruct (fill_cell_checks _ _ _ _ _ _
                (LONG (loc r)) (LAT (loc r)) (LONG (loc r')) (LAT (loc r')) Hu)
      as [V _]; [lia| | | | |exact V].
    + exact (at1_map_row (fun r => LONG (loc r)) p k r Ek).
    + exact (at1_map_row (fun r => LAT (loc r)) p k r Ek).
    + exact (at1_map_row (fun r => LONG (loc r)) p j r' Ej).
    + exact (at1_map_row (fun r => LAT (loc r)) p j r' Ej).
Qed.

(** X10.  The distance chunk completes exactly when the table is not empty
    and either has a single row (no distance is computed) or has only rows
    whose coordinates pass the check of geosphere; it stops on the empty
    table and on any table of two or more rows with an invalid point. *)
Theorem distances_completes_iff (p : list Row) :
  (exists M, distances p = Some M)
  <-> p <> [] /\ (length p = 1%nat \/ Forall valid_row p).
Proof.
  split.
  - intros (M & H). split.
    + intros ->. discriminate.
    + destruct p as [|r [|r' p']]; [discriminate|now left|].
      right. apply (distances_checked_all _ M H). simpl. lia.
  - intros (Hne & [H1|Hv]).
    + destruct p as [|r [|r' p']]; try discriminate.
      eexists. reflexivity.
    + destruct (distances_entries p Hne Hv) as (M & E & _). now exists M.
Qed.

(** X11.  In the matrix built from a non-empty table of valid rows, every
    cell off the diagonal, above it as well as below it, holds the
    haversine distance in kilometres between the location of its row and
    the location of its column, and that distance is the same in both
    directions: the value the loop copies into [distances[jj, ii]] is the
    value a second call of the helper would have returned. *)
Theorem off_diagonal_cells_are_distances (p : list Row) :
  p <> [] -> Forall valid_row p ->
  exists M,
    distances p = Some M
    /\ forall i j ri rj,
         nth_error p (i - 1) = Some ri -> nth_error p (j - 1) = Some rj ->
         (1 <= i)%nat -> (1 <= j)%nat -> i <> j ->
         cell M i j = km_between ri rj
         /\ km_between ri rj = km_between rj ri
         /\ get_geo_distance [LONG (loc ri)] [LAT (loc ri)]
                             [LONG (loc rj)] [LAT (loc rj)] "km"
            = Some [cell M i j].
Proof.
  intros Hne Hv.
  destruct (distances_cells p Hne Hv) as (M & E & Hcell).
  exists M. split; [exact E|].
  intros i j ri rj Ei Ej Hi Hj Hij.
  rewrite (Hcell i j ri rj Ei Ej Hi Hj Hij).
  split; [reflexivity|]. split.
  - unfold km_between. now rewrite haversine_sym.
  - rewrite Forall_forall in Hv.
    rewrite get_geo_distance_scalar; [reflexivity| |].
    + apply (Hv ri). eapply nth_error_In, Ei.
    + apply (Hv rj). eapply nth_error_In, Ej.
Qed.

Lemma fold_Rmin_lower (a : R) (l : list R) (b : R) :
  b <= a -> Forall (fun u => b <= u) l -> b <= fold_right Rmin a l.
Proof.
  intros Ha. induction 1 as [|u l Hu _ IH]; simpl; [exact Ha|].
  now apply Rmin_glb.
Qed.

Lemma fold_Rmin_upper (a : R) (l : list R) (u : R) :
  In u (a :: l) -> fold_right Rmin a l <= u.
Proof.
  induction l as [|c l IH]; simpl.
  - intros [->|[]]. lra.
  - intros [->|[->|H]].
    + eapply Rle_trans; [apply Rmin_r|]. apply IH. now left.
    + apply Rmin_l.
    + eapply Rle_trans; [apply Rmin_r|]. apply IH. now right.
Qed.

Lemma in_as_numeric (M : matrix) (u : R) :
  In u (as_numeric M)
  <-> exists i j, (1 <= i <= nrow M)%nat /\ (1 <= j <= ncol M)%nat
                  /\ u = cell M i j.
Proof.
  unfold as_numeric. rewrite in_flat_map. split.
  - intros (j & Hj & Hu). apply in_map_iff in Hu.
    destruct Hu as (i & <- & Hi). apply in_seq in Hj, Hi.
    exists i, j. repeat split; lia.
  - intros (i & j & Hi & Hj & ->). exists j.
    split; [apply in_seq; lia|].
    apply in_map_iff. exists i. split; [reflexivity|apply in_seq; lia].
Qed.

(** X12.  After the loops, on a non-empty table of valid rows, no cell
    still holds the initial value -1, and the minimum that
    [summary(as.numeric(distances))] shows is 0 ("the min should be 0, not
    -1"). *)
Theorem summary_min_is_zero (p : list Row) :
  p <> [] -> Forall valid_row p ->
  exists M,
    distances p = Some M
    /\ summary_min (as_numeric M) = Some 0
    /\ ~ In (-1) (as_numeric M).
Proof.
  intros Hne Hv.
  destruct (distances_entries p Hne Hv) as (M & E & Hr & Hc & Hcell).
  exists M. split; [exact E|].
  assert (Hn : (1 <= length p)%nat) by (destruct p; [congruence|simpl; lia]).
  assert (Pos : forall u, In u (as_numeric M) -> 0 <= u).
  { intros u Hu. apply in_as_numeric in Hu.
    destruct Hu as (i & j & Hi & Hj & ->).
    rewrite Hcell by lia. apply entry_nonneg. }
  assert (Zero : In 0 (as_numeric M)).
  { apply in_as_numeric. exists 1%nat, 1%nat.
    repeat split; try lia. rewrite Hcell by lia. now rewrite entry_diag. }
  split.
  - destruct (as_numeric M) as [|a l] eqn:El; [contradiction|].
    simpl. f_equal. apply Rle_antisym.
    + now apply fold_Rmin_upper.
    + apply fold_Rmin_lower.
      * apply Pos. now left.
      * apply Forall_forall. intros u Hu. apply Pos. now right.
  - intros H. apply Pos in H. lra.
Qed.

Lemma map_loc_add_columns (p : list Location) : map loc (add_columns p) = p.
Proof.
  unfold add_columns. rewrite map_map. simpl.
  assert (L : length p = length (scale (map ALT p))).
  { now rewrite length_scale, length_map. }
  revert L. generalize (scale (map ALT p)).
  induction p as [|l p IH]; intros [|s ss] L; simpl in *; try lia; [reflexivity|].
  f_equal. apply IH. lia.
Qed.

Lemma in_combine_nth_error {A B} (l : list A) (l' : list B) (a : A) (b : B) :
  In (a, b) (combine l l') ->
  exists k, nth_error l k = Some a /\ nth_error l' k = Some b.
Proof.
  revert l'. induction l as [|x l IH]; intros [|y l'] H; simpl in H;
    try contradiction.
  destruct H as [[= -> ->]|H].
  - now exists 0%nat.
  - destruct (IH l' H) as (k & Ha & Hb). now exists (S k).
Qed.

(** X13.  From a non-empty table of valid locations, whatever the state of
    the generator, the R file returns a table that keeps every location
    exactly once; each row still carries the annual sum of its own twelve
    months and the scaled altitude computed for its own location before the
    shuffle; and the distance matrix is indexed by the shuffled order: the
    cell [(i, j)] is the distance between the locations of rows [i] and
    [j] of the returned table. *)
Theorem preprocess_keeps_rows_together {rr : RRandom} (p : list Location)
        (s : Seed) :
  p <> [] ->
  Forall (fun l => valid_point (LONG l, LAT l) = true) p ->
  exists out,
    fst (preprocess p s) = Some out
    /\ Permutation (map loc (table out)) p
    /\ (forall r, In r (table out) ->
          pan r = Rsum (MONTHS (loc r))
          /\ exists k, nth_error p k = Some (loc r)
                       /\ nth_error (scale (map ALT p)) k = Some (scaled_alt r))
    /\ (forall i j ri rj,
          nth_error (table out) (i - 1) = Some ri ->
          nth_error (table out) (j - 1) = Some rj ->
          (1 <= i)%nat -> (1 <= j)%nat -> i <> j ->
          cell (dist out) i j = km_between ri rj).
Proof.
  intros Hne Hv.
  destruct (preprocess_returns p s Hne Hv) as (out & E & P & Ed & _).
  exists out. split; [exact E|]. split.
  { eapply perm_trans; [apply Permutation_map, P|].
    rewrite map_loc_add_columns. apply Permutation_refl. }
  split.
  - intros r Hr. apply (Permutation_in _ P) in Hr.
    unfold add_columns in Hr. apply in_map_iff in Hr.
    destruct Hr as ([l sc] & <- & Hin). simpl.
    split; [reflexivity|]. now apply in_combine_nth_error.
  - assert (Hq : table out <> []).
    { intros Hq. rewrite Hq in P. apply Permutation_nil in P.
      pose proof (length_add_columns p) as L. rewrite P in L.
      destruct p; [congruence|discriminate]. }
    assert (Vq : Forall valid_row (table out)).
    { apply Forall_forall. intros r Hr.
      apply (Permutation_in _ P), loc_add_columns in Hr.
      rewrite Forall_forall in Hv. exact (Hv _ Hr). }
    destruct (distances_cells (table out) Hq Vq) as (M & EM & Hcell).
    rewrite Ed in EM. injection EM as <-. exact Hcell.
Qed.

Lemma two_locations_valid :
  Forall (fun l => valid_point (LONG l, LAT l) = true) two_locations.
Proof. repeat constructor; apply valid_point_example; simpl; lra. Qed.

Lemma two_rows_valid : Forall valid_row two_rows.
Proof.
  apply Forall_forall. intros r Hr. apply loc_add_columns in Hr.
  pose proof two_locations_valid as V. rewrite Forall_forall in V.
  exact (V _ Hr).
Qed.

Lemma two_rows_not_empty : two_rows <> [].
Proof.
  intros H. pose proof (length_add_columns two_locations) as L.
  unfold two_rows in H. rewrite H in L. discriminate.
Qed.

(** Witness of X11: Paradise and Long Beach. *)
Lemma off_diagonal_cells_are_distances_witness :
  two_rows <> [] /\ Forall valid_row two_rows
  /\ exists M,
    distances two_rows = Some M
    /\ forall i j ri rj,
         nth_error two_rows (i - 1) = Some ri ->
         nth_error two_rows (j - 1) = Some rj ->
         (1 <= i)%nat -> (1 <= j)%nat -> i <> j ->
         cell M i j = km_between ri rj
         /\ km_between ri rj = km_between rj ri
         /\ get_geo_distance [LONG (loc ri)] [LAT (loc ri)]
                             [LONG (loc rj)] [LAT (loc rj)] "km"
            = Some [cell M i j].
Proof.
  split; [exact two_rows_not_empty|]. split; [exact two_rows_valid|].
  exact (off_diagonal_cells_are_distances two_rows two_rows_not_empty
           two_rows_valid).
Defined.

(** Witness of X12: the same two stations. *)
Lemma summary_min_is_zero_witness :
  two_rows <> [] /\ Forall valid_row two_rows
  /\ exists M,
    distances two_rows = Some M
    /\ summary_min (as_numeric M) = Some 0
    /\ ~ In (-1) (as_numeric M).
Proof.
  split; [exact two_rows_not_empty|]. split; [exact two_rows_valid|].
  exact (summary_min_is_zero two_rows two_rows_not_empty two_rows_valid).
Defined.

(** Witness of X13: the two locations, from the generator state 7. *)
Lemma preprocess_keeps_rows_together_witness :
  two_locations <> []
  /\ Forall (fun l => valid_point (LONG l, LAT l) = true) two_locations
  /\ exists out,
    fst (preprocess (rr := Rotating.rotating) two_locations 7%Z) = Some out
    /\ Permutation (map loc (table out)) two_locations
    /\ (forall r, In r (table out) ->
          pan r = Rsum (MONTHS (loc r))
          /\ exists k, nth_error two_locations k = Some (loc r)
                       /\ nth_error (scale (map ALT two_locations)) k
                          = Some (scaled_alt r))
    /\ (forall i j ri rj,
          nth_error (table out) (i - 1) = Some ri ->
          nth_error (table out) (j - 1) = Some rj ->
          (1 <= i)%nat -> (1 <= j)%nat -> i <> j ->
          cell (dist out) i j = km_between ri rj).
Proof.
  split; [discriminate|]. split; [exact two_locations_valid|].
  apply (@preprocess_keeps_rows_together Rotating.rotating two_locations 7%Z);
    [discriminate|exact two_locations_valid].
Defined.

End DistanceExtras.

(** ** The baseline on targets that are a line *)

Module BaselineExtras.
Import Torch Notebook Features Gcn Pipeline PartitionExtras.
Local Open Scope Q_scope.

Lemma kept_Forall2 {A B} (R : A -> B -> Prop) (X : list A) (Y : list B)
      (m : list bool) :
  Forall2 R X Y ->
  Forall2 R (map fst (filter snd (combine X m)))
            (map fst (filter snd (combine Y m))).
Proof.
  intros H. revert m.
  induction H as [|u v X Y Huv _ IH]; intros [|b m]; simpl; try constructor.
  destruct b; simpl; [constructor; [exact Huv|apply IH]|apply IH].
Qed.

Lemma kept_In {A} (X : list A) (m : list bool) (i : nat) (u : A) :
  nth_error X i = Some u -> nth_error m i = Some true ->
  In u (map fst (filter snd (combine X m))).
Proof.
  revert m i. induction X as [|a X IH]; intros [|b m] [|i]; simpl;
    try discriminate.
  - intros [= ->] [= ->]. now left.
  - intros Hu Hm. destruct b; simpl; [right|]; now apply (IH m i).
Qed.

Lemma inject_length_nonzero {A} (l : list A) :
  l <> [] -> ~ inject_Z (Z.of_nat (length l)) == 0.
Proof.
  intros Hl H. change 0 with (inject_Z 0) in H.
  apply inject_Z_injective in H. destruct l; [congruence|discriminate].
Qed.

Lemma Qsum_affine (a b : Q) (X Y : list Q) :
  Forall2 (fun u v => v == a * u + b) X Y ->
  Qsum Y == a * Qsum X + b * inject_Z (Z.of_nat (length X)).
Proof.
  induction 1 as [|u v X Y Huv _ IH].
  - simpl. ring.
  - cbn [Qsum fold_right length]. fold (Qsum X). fold (Qsum Y).
    rewrite Nat2Z.inj_succ, <- Z.add_1_r, inject_Z_plus, Huv, IH.
    change (inject_Z 1) with 1. ring.
Qed.

Lemma Qmean_affine (a b : Q) (X Y : list Q) :
  X <> [] ->
  Forall2 (fun u v => v == a * u + b) X Y ->
  Qmean Y == a * Qmean X + b.
Proof.
  intros Hne H. unfold Qmean.
  rewrite <- (Forall2_length H), (Qsum_affine a b X Y H).
  field. now apply inject_length_nonzero.
Qed.

Lemma cross_sum_affine (a b mx my : Q) (X Y : list Q) :
  my == a * mx + b ->
  Forall2 (fun u v => v == a * u + b) X Y ->
  Qsum (map (fun p => (fst p - mx) * (snd p - my)) (combine X Y))
  == a * Qsum (map (fun u => (u - mx) * (u - mx)) X).
Proof.
  intros Hm. induction 1 as [|u v X Y Huv _ IH].
  - simpl. ring.
  - cbn [combine map Qsum fold_right fst snd].
    fold (Qsum (map (fun p => (fst p - mx) * (snd p - my)) (combine X Y))).
    fold (Qsum (map (fun u => (u - mx) * (u - mx)) X)).
    rewrite IH, Huv, Hm. ring.
Qed.

Lemma square_nonneg (a : Q) : 0 <= a * a.
Proof. Lqa.nra. Qed.

Lemma squares_sum_nonneg (mx : Q) (X : list Q) :
  0 <= Qsum (map (fun u => (u - mx) * (u - mx)) X).
Proof.
  induction X as [|u X IH]; simpl; [Lqa.lra|].
  fold (Qsum (map (fun u => (u - mx) * (u - mx)) X)).
  pose proof (square_nonneg (u - mx)) as Hs.
  revert IH Hs. generalize (Qsum (map (fun u => (u - mx) * (u - mx)) X)).
  generalize ((u - mx) * (u - mx)). intros s t Ht Hs. Lqa.lra.
Qed.

(** A column whose squared deviations sum to zero is constant. *)
Lemma squares_sum_zero (mx : Q) (X : list Q) :
  Qsum (map (fun u => (u - mx) * (u - mx)) X) == 0 ->
  forall u, In u X -> u == mx.
Proof.
  induction X as [|c X IH]; simpl; intros H u Hu; [contradiction|].
  fold (Qsum (map (fun u => (u - mx) * (u - mx)) X)) in H.
  pose proof (squares_sum_nonneg mx X) as Hn.
  pose proof (square_nonneg (c - mx)) as Hs.
  assert (H12 : (c - mx) * (c - mx) == 0
                /\ Qsum (map (fun u => (u - mx) * (u - mx)) X) == 0).
  { revert H Hn Hs. generalize (Qsum (map (fun u => (u - mx) * (u - mx)) X)).
    generalize ((c - mx) * (c - mx)). intros s t H Ht Hs. split; Lqa.lra. }
  destruct H12 as [H1 H2].
  destruct Hu as [<-|Hu]; [|now apply IH].
  apply Qmult_integral in H1. destruct H1 as [H1|H1]; Lqa.lra.
Qed.

Lemma zero_errors_sum (yhat ytest : list Q) :
  Forall2 Qeq yhat ytest ->
  Qsum (map (fun p => (fst p - snd p) * (fst p - snd p)) (combine yhat ytest))
  == 0.
Proof.
  induction 1 as [|u v l l' Huv _ IH]; simpl; [reflexivity|].
  fold (Qsum (map (fun p => (fst p - snd p) * (fst p - snd p)) (combine l l'))).
  rewrite IH, Huv. ring.
Qed.

(** X14.  When every target is the same line [a * u + b] of the vertex's
    first feature [u], two training vertices differ in that feature and
    some vertex is held out, the baseline cell returns, and in exact
    arithmetic the error it reports is zero: the fitted line is the line of
    the targets. *)
Theorem baseline_is_exact_on_a_line (g : Data) (train : list bool) (a b : Q)
        (X : Tensor1) :
  column0 (x g) = Some X ->
  length train = length X ->
  Forall2 (fun u v => v == a * u + b) X (y g) ->
  (exists i j u v,
      nth_error train i = Some true /\ nth_error train j = Some true
      /\ nth_error X i = Some u /\ nth_error X j = Some v /\ ~ u == v) ->
  (exists k, nth_error train k = Some false) ->
  exists q,
    baseline g train (bitwise_not train) = Some (Finite q) /\ q == 0.
Proof.
  intros HX Lm Hline (i & j & u & v & Ti & Tj & Xi & Xj & Huv) (k & Tk).
  pose proof (Forall2_length Hline) as Ly.
  set (ntrain := bitwise_not train).
  assert (Ln : length ntrain = length X).
  { unfold ntrain, bitwise_not. now rewrite length_map. }
  set (Xtr := map fst (filter snd (combine X train))).
  set (ytr := map fst (filter snd (combine (y g) train))).
  set (Xte := map fst (filter snd (combine X ntrain))).
  set (yte := map fst (filter snd (combine (y g) ntrain))).
  assert (Htr : Forall2 (fun u v => v == a * u + b) Xtr ytr)
    by (apply kept_Forall2; exact Hline).
  assert (Hte : Forall2 (fun u v => v == a * u + b) Xte yte)
    by (apply kept_Forall2; exact Hline).
  assert (Iu : In u Xtr) by now apply (kept_In X train i).
  assert (Iv : In v Xtr) by now apply (kept_In X train j).
  assert (Ntr : Xtr <> []) by (intros E; rewrite E in Iu; contradiction).
  assert (Nte : Xte <> []).
  { assert (Hk : (k < length X)%nat).
    { rewrite <- Lm. apply nth_error_Some. congruence. }
    destruct (nth_error X k) as [w|] eqn:Ew;
      [|apply nth_error_None in Ew; lia].
    assert (In w Xte).
    { apply (kept_In X ntrain k); [exact Ew|].
      unfold ntrain, bitwise_not. now rewrite nth_error_map, Tk. }
    intros E. rewrite E in H. contradiction. }
  assert (Hp : forall reg,
             predict reg Xte = Some (map (fun w => fst reg * w + snd reg) Xte)).
  { intros reg. clear -Nte. clearbody Xte. unfold predict.
    destruct Xte; [congruence|reflexivity]. }
  set (mx := Qmean Xtr). set (my := Qmean ytr).
  set (sxx := Qsum (map (fun u => (u - mx) * (u - mx)) Xtr)).
  set (sxy := Qsum (map (fun p => (fst p - mx) * (snd p - my)) (combine Xtr ytr))).
  assert (Hmy : my == a * mx + b) by (apply Qmean_affine; assumption).
  assert (Hsxy : sxy == a * sxx)
    by (apply (cross_sum_affine a b); assumption).
  assert (Hsxx : ~ sxx == 0).
  { intros H0. apply Huv.
    rewrite (squares_sum_zero mx Xtr H0 u Iu), (squares_sum_zero mx Xtr H0 v Iv).
    reflexivity. }
  assert (Hb : Qeq_bool sxx 0 = false).
  { destruct (Qeq_bool sxx 0) eqn:E; [|reflexivity].
    now apply Qeq_bool_eq in E. }
  set (slope := sxy / sxx).
  assert (Hslope : slope == a).
  { unfold slope. rewrite Hsxy. field. exact Hsxx. }
  set (yhat := map (fun w => slope * w + (my - slope * mx)) Xte).
  assert (Hhat : Forall2 Qeq yhat yte).
  { unfold yhat. clear -Hte Hslope Hmy.
    induction Hte as [|w z l l' Hwz _ IH]; simpl; constructor; [|exact IH].
    rewrite Hwz, Hslope, Hmy. ring. }
  assert (Hrun : baseline g train ntrain
     = Some (Finite (Qsum (map (fun p => (fst p - snd p) * (fst p - snd p))
                               (combine yhat yte))
                     / inject_Z (Z.of_nat (length (combine yhat yte)))))).
  { unfold baseline. rewrite HX. cbn [obind].
    rewrite (masked_select_same_length X train) by congruence. cbn [obind].
    rewrite (masked_select_same_length (y g) train) by congruence. cbn [obind].
    fold Xtr ytr. unfold LinearRegression_fit.
    assert (L0 : (length Xtr =? 0)%nat = false).
    { destruct Xtr; [congruence|reflexivity]. }
    rewrite L0, (Forall2_length Htr), Nat.eqb_refl. cbn [negb orb obind].
    fold mx my sxx sxy. rewrite Hb. fold slope. cbn [obind].
    fold ntrain.
    rewrite (masked_select_same_length X ntrain) by congruence. cbn [obind].
    fold Xte. rewrite Hp. cbn [obind fst snd]. fold yhat.
    rewrite (masked_select_same_length (y g) ntrain) by congruence. cbn [obind].
    fold yte. unfold MSELoss, broadcast.
    rewrite (Forall2_length Hhat), Nat.eqb_refl.
    destruct (combine yhat yte) as [|pq pqs] eqn:Ec; [|reflexivity].
    exfalso. apply (f_equal (@length _)) in Ec.
    rewrite length_combine, (Forall2_length Hhat), Nat.min_id in Ec.
    rewrite <- (Forall2_length Hte) in Ec.
    apply Nte. now apply length_zero_iff_nil. }
  eexists. split; [exact Hrun|].
  rewrite (zero_errors_sum yhat yte Hhat).
  unfold Qdiv. ring.
Qed.

(** Witness of X14: targets [2 u + 1] on four vertices, the last held out. *)
Lemma baseline_is_exact_on_a_line_witness :
  exists q,
    baseline {| x := [[0]; [1]; [2]; [5]]; edge_index := ([], []);
                y := [1; 3; 5; 11] |}
             [true; true; true; false] (bitwise_not [true; true; true; false])
    = Some (Finite q) /\ q == 0.
Proof.
  apply (baseline_is_exact_on_a_line
           {| x := [[0]; [1]; [2]; [5]]; edge_index := ([], []);
              y := [1; 3; 5; 11] |}
           [true; true; true; false] 2 1 [0; 1; 2; 5]).
  - reflexivity.
  - reflexivity.
  - repeat constructor.
  - exists 0%nat, 1%nat, 0, 1. repeat split. discriminate.
  - exists 3%nat. reflexivity.
Defined.

End BaselineExtras.
